(** * langchain-rag: the retrieval-augmented question answering backend

    A shallow embedding of the backend services
    ([services/ragService.js], [services/openaiService.js],
    [services/s3Service.js] and [server.js]) together with the properties
    of the ingestion pass, the vector store life cycle, retrieval and
    citation extraction.

    Layout: the JavaScript values and builtins the services rely on, the
    monad of asynchronous programs, the four source files (one module
    each), concrete scenarios, and then the lemmas and theorems. *)

From Stdlib Require Import String Ascii.
From Stdlib Require Import List NArith ZArith Lia Bool Arith.
Import ListNotations.

Set Implicit Arguments.

(* ================================================================== *)
(** * JavaScript values and builtins *)
(* ================================================================== *)

Module JS.

(** A JavaScript string is a sequence of UTF-16 code units. *)
Definition jsstring := list N.

Local Open Scope N_scope.

(** Decoder used only to write the string literals of the source text
    (which this file holds as UTF-8) as code units. *)
Fixpoint utf16_of_utf8 (bs : list N) : jsstring :=
  match bs with
  | [] => []
  | b0 :: r0 =>
    if b0 <? 128 then b0 :: utf16_of_utf8 r0
    else
      match r0 with
      | [] => [65533]
      | b1 :: r1 =>
        if b0 <? 224 then ((b0 - 192) * 64 + (b1 - 128)) :: utf16_of_utf8 r1
        else
          match r1 with
          | [] => [65533]
          | b2 :: r2 =>
            if b0 <? 240
            then ((b0 - 224) * 4096 + (b1 - 128) * 64 + (b2 - 128))
                   :: utf16_of_utf8 r2
            else
              match r2 with
              | [] => [65533]
              | b3 :: r3 =>
                let cp := (b0 - 240) * 262144 + (b1 - 128) * 4096
                          + (b2 - 128) * 64 + (b3 - 128) in
                let v := cp - 65536 in
                (55296 + v / 1024) :: (56320 + v mod 1024)
                  :: utf16_of_utf8 r3
              end
          end
      end
  end.

Definition utf16 (s : string) : jsstring :=
  utf16_of_utf8 (map N_of_ascii (list_ascii_of_string s)).

(** A string literal of the source, written as text and held as its code
    units. *)
Abbreviation js s :=
  (ltac:(let v := eval vm_compute in (utf16 s%string) in exact v))
  (only parsing).

Definition jseqb (a b : jsstring) : bool :=
  if list_eq_dec N.eq_dec a b then true else false.

(** A string is falsy exactly when it is empty; [undefined] is [None]. *)
Definition truthy (s : option jsstring) : bool :=
  match s with
  | Some (_ :: _) => true
  | _ => false
  end.

(** ** Character classes of the regular expression dialect *)

(** [\d] *)
Definition is_digit (c : N) : bool := (48 <=? c) && (c <=? 57).

(** [\s]: white space and line terminators. *)
Definition is_space (c : N) : bool :=
  ((9 <=? c) && (c <=? 13)) || (c =? 32) || (c =? 160) || (c =? 5760)
  || ((8192 <=? c) && (c <=? 8202)) || (c =? 8232) || (c =? 8233)
  || (c =? 8239) || (c =? 8287) || (c =? 12288) || (c =? 65279).

Definition is_char (a c : N) : bool := c =? a.

Definition LBRACKET : N := 91.
Definition RBRACKET : N := 93.
Definition COMMA : N := 44.

(** ** A backtracking matcher

    Enough of the regular expression language for the two patterns of
    [openaiService.js]: single characters and classes, sequence, greedy
    repetition and one capturing group. *)

Inductive regex : Type :=
| Chr (p : N -> bool)
| Seq (r1 r2 : regex)
| Star (r : regex)
| Group (r : regex).

(** [r+] *)
Definition Plus (r : regex) : regex := Seq r (Star r).

(** The matcher state: the input still to read and capture 1. *)
Record mstate : Type := MState { rest : jsstring; cap1 : option jsstring }.

Definition orelse {A} (a b : option A) : option A :=
  match a with
  | Some x => Some x
  | None => b
  end.

(** Greedy repetition: try one more iteration (which must consume input),
    and fall back to the continuation. *)
Fixpoint star_loop {A} (body : mstate -> (mstate -> option A) -> option A)
    (k : mstate -> option A) (fuel : nat) (st : mstate) : option A :=
  match fuel with
  | O => k st
  | S f =>
    orelse
      (body st (fun st' =>
         if (length (rest st') <? length (rest st))%nat
         then star_loop body k f st'
         else None))
      (k st)
  end.

Fixpoint exec {A} (r : regex) (st : mstate) (k : mstate -> option A)
  : option A :=
  match r with
  | Chr p =>
    match rest st with
    | c :: s' => if p c then k (MState s' (cap1 st)) else None
    | [] => None
    end
  | Seq r1 r2 => exec r1 st (fun st' => exec r2 st' k)
  | Star r1 => star_loop (exec r1) k (S (length (rest st))) st
  | Group r1 =>
    exec r1 st (fun st' =>
      k (MState (rest st')
           (Some (firstn (length (rest st) - length (rest st')) (rest st)))))
  end.

(** A match anchored at the start of [s]: what follows it and capture 1. *)
Definition match_here (r : regex) (s : jsstring) : option mstate :=
  exec r (MState s None) (fun st => Some st).

(** [String.prototype.match] with a pattern that has no [g] flag: the
    leftmost start position at which the pattern matches. *)
Fixpoint search (r : regex) (s : jsstring) : option mstate :=
  match match_here r s with
  | Some m => Some m
  | None =>
    match s with
    | [] => None
    | _ :: s' => search r s'
    end
  end.

(** [String.prototype.split] with a pattern as separator.  [acc] holds,
    reversed, the piece read since the last separator. *)
Fixpoint split_loop (sep : regex) (fuel : nat) (s acc : jsstring)
  : list jsstring :=
  match fuel with
  | O => [rev acc ++ s]
  | S f =>
    match s with
    | [] => [rev acc]
    | c :: s' =>
      match match_here sep s with
      | Some m =>
        if (length (rest m) <? length s)%nat
        then rev acc :: split_loop sep f (rest m) []
        else
          (* an empty match: it splits only after a non-empty piece *)
          match acc with
          | [] => split_loop sep f s' [c]
          | _ :: _ => rev acc :: split_loop sep f s' [c]
          end
      | None => split_loop sep f s' (c :: acc)
      end
    end
  end.

Definition split (sep : regex) (s : jsstring) : list jsstring :=
  split_loop sep (S (length s)) s [].

(** ** String builtins *)

Fixpoint dropWhile (p : N -> bool) (s : jsstring) : jsstring :=
  match s with
  | [] => []
  | c :: s' => if p c then dropWhile p s' else s
  end.

Fixpoint takeWhile (p : N -> bool) (s : jsstring) : jsstring :=
  match s with
  | [] => []
  | c :: s' => if p c then c :: takeWhile p s' else []
  end.

(** [String.prototype.trim] *)
Definition trim (s : jsstring) : jsstring :=
  rev (dropWhile is_space (rev (dropWhile is_space s))).

(** [String.prototype.substring(0, n)] *)
Definition substring0 (n : nat) (s : jsstring) : jsstring := firstn n s.

(** The value of a digit in radix 36, or 36 for any other code unit. *)
Definition digit_val (c : N) : N :=
  if (48 <=? c) && (c <=? 57) then c - 48
  else if (97 <=? c) && (c <=? 122) then c - 87
  else if (65 <=? c) && (c <=? 90) then c - 55
  else 36.

Definition radix_digit (radix c : N) : bool := digit_val c <? radix.

Definition digits_value (radix : N) (ds : jsstring) : N :=
  fold_left (fun acc d => acc * radix + digit_val d) ds 0.

(** [parseInt(s)] without a radix; [None] is [NaN].  The result is kept
    exact: the source only compares it with an array length, and a value
    too large to be exact as a double is beyond every array length both
    before and after rounding. *)
Definition parseInt (s : jsstring) : option Z :=
  let s1 := dropWhile is_space s in
  let '(sign, s2) :=
    match s1 with
    | c :: r => if c =? 45 then ((-1)%Z, r)
                else if c =? 43 then (1%Z, r) else (1%Z, s1)
    | [] => (1%Z, s1)
    end in
  let '(radix, s3) :=
    match s2 with
    | c0 :: x :: r =>
      if (c0 =? 48) && ((x =? 120) || (x =? 88)) then (16, r) else (10, s2)
    | _ => (10, s2)
    end in
  match takeWhile (radix_digit radix) s3 with
  | [] => None
  | ds => Some (sign * Z.of_N (digits_value radix ds))%Z
  end.

(** Decimal rendering of an integer, as a template literal does. *)
Fixpoint uint_units (u : Decimal.uint) : jsstring :=
  match u with
  | Decimal.Nil => []
  | Decimal.D0 u' => 48 :: uint_units u'
  | Decimal.D1 u' => 49 :: uint_units u'
  | Decimal.D2 u' => 50 :: uint_units u'
  | Decimal.D3 u' => 51 :: uint_units u'
  | Decimal.D4 u' => 52 :: uint_units u'
  | Decimal.D5 u' => 53 :: uint_units u'
  | Decimal.D6 u' => 54 :: uint_units u'
  | Decimal.D7 u' => 55 :: uint_units u'
  | Decimal.D8 u' => 56 :: uint_units u'
  | Decimal.D9 u' => 57 :: uint_units u'
  end.

Definition toString10 (z : Z) : jsstring :=
  match Z.to_int z with
  | Decimal.Pos u => uint_units u
  | Decimal.Neg u => 45 :: uint_units u
  end.

(** [String.prototype.toLowerCase].  The mapping is exact on ASCII and on
    the two code units outside ASCII whose lower case holds an ASCII
    letter: the Kelvin sign U+212A, which becomes [k], and U+0130, which
    becomes [i] followed by U+0307.  Any other code unit is kept: where it
    has a lower case, that lies outside ASCII as well, so that comparing
    the result with an ASCII string comes out as in the source. *)
Definition lower_unit (c : N) : jsstring :=
  if (65 <=? c) && (c <=? 90) then [c + 32]
  else if c =? 8490 then [107]
  else if c =? 304 then [105; 775]
  else [c].

Definition toLowerCase (s : jsstring) : jsstring := flat_map lower_unit s.

(** ** Errors

    An [Error] is represented by its message. *)
Definition error := jsstring.

Inductive result (A : Type) : Type :=
| Ok (a : A)
| Err (e : error).
Arguments Ok {A} a.
Arguments Err {A} e.

End JS.
Import JS.

(** ** [path] (POSIX flavour) *)

Module Path.

Local Open Scope N_scope.

Definition SLASH : N := 47.
Definition DOT : N := 46.

(** The last non-empty segment of a path; trailing separators are
    ignored. *)
Fixpoint basename_from (last cur : jsstring) (s : jsstring) : jsstring :=
  match s with
  | [] => match cur with [] => last | _ :: _ => rev cur end
  | c :: s' =>
    if c =? SLASH
    then basename_from (match cur with [] => last | _ :: _ => rev cur end)
           [] s'
    else basename_from last (c :: cur) s'
  end.

Definition basename (p : jsstring) : jsstring := basename_from [] [] p.

(** The suffix that starts at the last dot, when there is a dot. *)
Fixpoint after_last_dot (s : jsstring) : option jsstring :=
  match s with
  | [] => None
  | c :: r =>
    match after_last_dot r with
    | Some e => Some e
    | None => if c =? DOT then Some s else None
    end
  end.

(** [path.extname]: from the last dot of the base name to its end; empty
    when there is no dot, when the only dot starts the name, and for
    [..]. *)
Definition extname (p : jsstring) : jsstring :=
  match basename p with
  | [] => []
  | c :: r =>
    match after_last_dot r with
    | Some e => if jseqb (c :: r) [DOT; DOT] then [] else e
    | None => []
    end
  end.

(** The pieces of a path between its separators. *)
Fixpoint segments_from (cur : jsstring) (s : jsstring) : list jsstring :=
  match s with
  | [] => [rev cur]
  | c :: s' =>
    if c =? SLASH then rev cur :: segments_from [] s'
    else segments_from (c :: cur) s'
  end.

Definition segments (p : jsstring) : list jsstring := segments_from [] p.

(** One step of normalization.  [kept] holds the segments kept so far,
    the last one first: empty segments and [.] are dropped, and [..]
    takes the last kept segment away, or is kept itself where the path
    may climb above its start. *)
Definition keep_segment (allowAboveRoot : bool) (kept : list jsstring)
    (seg : jsstring) : list jsstring :=
  if jseqb seg [] || jseqb seg [DOT] then kept
  else if jseqb seg [DOT; DOT] then
    match kept with
    | top :: below => if jseqb top [DOT; DOT] then seg :: kept else below
    | [] => if allowAboveRoot then [seg] else []
    end
  else seg :: kept.

Fixpoint join_segments (segs : list jsstring) : jsstring :=
  match segs with
  | [] => []
  | [seg] => seg
  | seg :: segs' => seg ++ SLASH :: join_segments segs'
  end.

Definition ends_with_slash (p : jsstring) : bool :=
  match rev p with
  | c :: _ => c =? SLASH
  | [] => false
  end.

(** [path.normalize] *)
Definition normalize (p : jsstring) : jsstring :=
  match p with
  | [] => [DOT]
  | c :: _ =>
    let isAbsolute := c =? SLASH in
    let trailingSeparator := ends_with_slash p in
    let kept :=
      join_segments
        (rev (fold_left (keep_segment (negb isAbsolute)) (segments p) [])) in
    match kept with
    | [] =>
      if isAbsolute then [SLASH]
      else if trailingSeparator then [DOT; SLASH] else [DOT]
    | _ :: _ =>
      let kept' := if trailingSeparator then kept ++ [SLASH] else kept in
      if isAbsolute then SLASH :: kept' else kept'
    end
  end.

(** [path.join] of two arguments: the non-empty ones, joined by a
    separator and normalized. *)
Definition join (dir name : jsstring) : jsstring :=
  match dir, name with
  | [], [] => [DOT]
  | [], _ :: _ => normalize name
  | _ :: _, [] => normalize dir
  | _ :: _, _ :: _ => normalize (dir ++ SLASH :: name)
  end.

End Path.

(* ================================================================== *)
(** * Asynchronous programs *)
(* ================================================================== *)

(** An [async] function is a tree of steps over a mutable world [W]:
    synchronous steps, and awaited operations of the outside world, which
    settle with a value or reject with an error.  Between two awaits a
    function runs without interruption; at an await other functions may
    run.  An error that is raised outside every function, the ['error']
    event of a stream that nobody listens to, ends the process: a
    crash. *)

Module Async.

(** How a function in flight comes to its end: its promise settles, with
    a value or a rejection, or the process ends with an uncaught error. *)
Inductive completion (A : Type) : Type :=
| Settles (r : result A)
| Crashes (e : error).

Arguments Settles {A} r.
Arguments Crashes {A} e.

(** A settled promise is written as its value or rejection, also where it
    stands as the second component of a pair. *)
Coercion Settles : result >-> completion.
Arguments pair {A B} & a b.

Section Prog.

Variable W : Type.

Inductive prog (A : Type) : Type :=
| Ret (a : A)
| Throw (e : error)
| Crash (e : error)
| Sync (X : Type) (f : W -> W * X) (k : X -> prog A)
| Await (X : Type) (f : W -> W * result X) (k : result X -> prog A).

Arguments Ret {A} a.
Arguments Throw {A} e.
Arguments Crash {A} e.
Arguments Sync {A X} f k.
Arguments Await {A X} f k.

(** [Crash] is an error raised outside every function in flight: an
    ['error'] event that no listener takes.  It is uncaught, no [catch]
    block sees it, and the process ends with it. *)

Fixpoint bind {A B} (p : prog A) (f : A -> prog B) : prog B :=
  match p with
  | Ret a => f a
  | Throw e => Throw e
  | Crash e => Crash e
  | Sync g k => Sync g (fun x => bind (k x) f)
  | Await g k => Await g (fun r => bind (k r) f)
  end.

(** [try { p } catch (error) { h error }] *)
Fixpoint try_catch {A} (p : prog A) (h : error -> prog A) : prog A :=
  match p with
  | Ret a => Ret a
  | Throw e => h e
  | Crash e => Crash e
  | Sync g k => Sync g (fun x => try_catch (k x) h)
  | Await g k => Await g (fun r => try_catch (k r) h)
  end.

(** A synchronous step. *)
Definition sync {X} (f : W -> W * X) : prog X := Sync f (fun x => Ret x).

(** [await op]: a rejection is thrown at the await. *)
Definition await {X} (f : W -> W * result X) : prog X :=
  Await f (fun r => match r with Ok x => Ret x | Err e => Throw e end).

Definition get : prog W := sync (fun w => (w, w)).
Definition modify (f : W -> W) : prog unit := sync (fun w => (f w, tt)).

Definition lift_result {A} (r : result A) : prog A :=
  match r with
  | Ok a => Ret a
  | Err e => Throw e
  end.

(** Running one function to completion, nothing else interleaved. *)
Fixpoint run {A} (p : prog A) (w : W) : W * completion A :=
  match p with
  | Ret a => (w, Settles (Ok a))
  | Throw e => (w, Settles (Err e))
  | Crash e => (w, Crashes e)
  | Sync g k => let (w', x) := g w in run (k x) w'
  | Await g k => let (w', r) := g w in run (k r) w'
  end.

(** ** The event loop

    [settle] runs a function up to its next await.  [resume] lets the
    awaited operation complete and runs the function on, up to the next
    await.  A schedule names, turn after turn, which of the functions in
    flight goes on; once one of them has crashed, none goes on. *)






Definition finished {A} (p : prog A) : bool :=
  match p with
  | Ret _ | Throw _ | Crash _ => true
  | _ => false
  end.

End Prog.

Arguments Ret {W A} a.
Arguments Throw {W A} e.
Arguments Crash {W A} e.
Arguments Sync {W A X} f k.
Arguments Await {W A X} f k.
Arguments get {W}.
Arguments lift_result {W A} r.

Declare Scope prog_scope.
Delimit Scope prog_scope with prog.
Notation "x <- p ;; q" := (bind p (fun x => q))
  (at level 61, p at next level, right associativity) : prog_scope.
Notation "p ;;; q" := (bind p (fun _ => q))
  (at level 61, right associativity) : prog_scope.

End Async.
Import Async.
Local Open Scope prog_scope.

(* ================================================================== *)
(** * Documents, stores and the world the services run in *)
(* ================================================================== *)

Module Model.

(** Document metadata: the provenance key, the modification time of the
    stored object and, for paged formats, the page. *)
Record Metadata : Type := mkMetadata {
  source : option jsstring;
  lastModified : option N;
  pageNumber : option N
}.

(** [new Document({ pageContent, metadata })]; metadata defaults to the
    empty object. *)
Record Document : Type := mkDocument {
  pageContent : jsstring;
  metadata : Metadata
}.

Definition noMetadata : Metadata := mkMetadata None None None.

(** One entry of an object listing. *)
Record S3Item : Type := mkS3Item {
  key : jsstring;
  size : N;
  itemLastModified : N
}.

(** A vector store holds the documents it was built from; the two kinds
    are the persisted FAISS store and the in-memory store. *)
Inductive VectorStore : Type :=
| FaissStore (docs : list Document)
| MemoryVectorStore (docs : list Document).

Definition storeDocs (v : VectorStore) : list Document :=
  match v with
  | FaissStore d => d
  | MemoryVectorStore d => d
  end.

(** The directory at [vectorDBPath]: missing, or present with or without
    a loadable saved store in it. *)
Inductive DiskState : Type :=
| Missing
| Present (saved : option (list Document)).

(** The [Body] of a [GetObject] response is a stream: it delivers the
    whole content and ends, or it emits ['error'] after a part of it. *)
Inductive BodyStream : Type :=
| Delivers (content : jsstring)
| Breaks (received : jsstring) (e : error).

(** How a write stream can fail: on opening its file, which is then not
    made, or once [written] code units have reached the file and more
    follow. *)
Inductive WriteFault : Type :=
| OpenFails (e : error)
| WriteFails (written : nat) (e : error).

(** How saving a store can fail: the directory cannot be made, or the
    directory is there and the index cannot be written into it. *)
Inductive SaveFault : Type :=
| CannotMakeDirectory (e : error)
| CannotWriteIndex (e : error).

(** The mutable world: the module-level variables of [ragService.js] and
    [server.js], the two places of the file system the services touch,
    and a record of the calls made to the two oracles. *)
Record World : Type := mkWorld {
  vectorStore : option VectorStore;
  isInitialized : bool;
  vectorDB : DiskState;
  tempFiles : list (jsstring * jsstring);
  embedPasses : list (list Document);
  llmCalls : list jsstring
}.

Definition set_vectorStore (v : option VectorStore) (w : World) : World :=
  mkWorld v (isInitialized w) (vectorDB w) (tempFiles w) (embedPasses w)
    (llmCalls w).
Definition set_isInitialized (b : bool) (w : World) : World :=
  mkWorld (vectorStore w) b (vectorDB w) (tempFiles w) (embedPasses w)
    (llmCalls w).
Definition set_vectorDB (d : DiskState) (w : World) : World :=
  mkWorld (vectorStore w) (isInitialized w) d (tempFiles w) (embedPasses w)
    (llmCalls w).
Definition set_tempFiles (t : list (jsstring * jsstring)) (w : World)
  : World :=
  mkWorld (vectorStore w) (isInitialized w) (vectorDB w) t (embedPasses w)
    (llmCalls w).
Definition log_embedPass (d : list Document) (w : World) : World :=
  mkWorld (vectorStore w) (isInitialized w) (vectorDB w) (tempFiles w)
    (embedPasses w ++ [d]) (llmCalls w).
Definition log_llmCall (p : jsstring) (w : World) : World :=
  mkWorld (vectorStore w) (isInitialized w) (vectorDB w) (tempFiles w)
    (embedPasses w) (llmCalls w ++ [p]).

(** The collaborators outside the repository.  They answer the same way
    throughout a run. *)
Record Env : Type := mkEnv {
  (** [ListObjectsV2]: the [Contents] of the response, which may be
      absent, or a failure of the request. *)
  s3_list : result (option (list S3Item));
  (** [GetObject]: the response for the object with this key, as its
      body stream, or a failure of the request. *)
  s3_get : jsstring -> result BodyStream;
  (** The fault, if any, of a write stream on this path. *)
  write_fault : jsstring -> option WriteFault;
  (** [PDFLoader] and [DocxLoader] on a local file (path, content). *)
  pdf_load : jsstring -> jsstring -> result (list Document);
  docx_load : jsstring -> jsstring -> result (list Document);
  (** [RecursiveCharacterTextSplitter.splitDocuments] at chunk size 500
      and overlap 200. *)
  split_documents : list Document -> result (list Document);
  (** The embedding oracle: whether embedding these documents, or this
      query, fails; and how close it puts a document to a query. *)
  embed_documents_error : list Document -> option error;
  embed_query_error : jsstring -> option error;
  score : jsstring -> Document -> Z;
  (** Whether, and how, writing the store to disk fails. *)
  save_fault : option SaveFault;
  (** The generation oracle: the [content] of the response to a prompt. *)
  llm : jsstring -> result jsstring;
  (** The directory of transient files. *)
  tempDir : jsstring
}.

Definition M := prog World.

(** ** File system steps *)

Fixpoint lookup_file (p : jsstring) (fs : list (jsstring * jsstring))
  : option jsstring :=
  match fs with
  | [] => None
  | (q, c) :: fs' => if jseqb q p then Some c else lookup_file p fs'
  end.

Definition remove_file (p : jsstring) (fs : list (jsstring * jsstring))
  : list (jsstring * jsstring) :=
  filter (fun qc => negb (jseqb (fst qc) p)) fs.

Definition write_file (p c : jsstring) (fs : list (jsstring * jsstring))
  : list (jsstring * jsstring) :=
  (p, c) :: remove_file p fs.

(** What reaches the reader of a body stream before the stream ends. *)
Definition arriving (body : BodyStream) : jsstring :=
  match body with
  | Delivers content => content
  | Breaks received _ => received
  end.

(** What a write stream has done with the data it is given: it did not
    open its file; it emitted ['error'] with a part in the file; or it
    took everything. *)
Inductive Written : Type :=
| NotOpened (e : error)
| CutShort (content : jsstring) (e : error)
| Took (content : jsstring).

Definition write_stream (fault : option WriteFault) (data : jsstring)
  : Written :=
  match fault with
  | Some (OpenFails e) => NotOpened e
  | Some (WriteFails written e) =>
    if (written <? length data)%nat then CutShort (firstn written data) e
    else Took data
  | None => Took data
  end.

(** [fs.existsSync] on a transient file. *)
Definition existsSync_temp (p : jsstring) : M bool :=
  sync (fun w => (w, match lookup_file p (tempFiles w) with
                     | Some _ => true
                     | None => false
                     end)).

(** [fs.unlinkSync] *)
Definition unlinkSync (p : jsstring) : M unit :=
  modify (fun w => set_tempFiles (remove_file p (tempFiles w)) w).

(** [fs.existsSync(vectorDBPath)] *)
Definition existsSync_vectorDB : M bool :=
  sync (fun w => (w, match vectorDB w with
                     | Missing => false
                     | Present _ => true
                     end)).

(** [fs.rmSync(vectorDBPath, { recursive: true, force: true })] *)
Definition rmSync_vectorDB : M unit :=
  modify (set_vectorDB Missing).

(** ** Vector store operations *)

(** Stable insertion by descending score: [d], which comes before the
    documents of [l] in the store, goes before those of equal score. *)
Fixpoint insert_by (f : Document -> Z) (d : Document) (l : list Document)
  : list Document :=
  match l with
  | [] => [d]
  | x :: l' => if (f x <=? f d)%Z then d :: l else x :: insert_by f d l'
  end.

Definition sort_by (f : Document -> Z) (l : list Document)
  : list Document :=
  fold_right (insert_by f) [] l.

Definition error_result {A} (o : option error) (a : A) : result A :=
  match o with
  | Some e => Err e
  | None => Ok a
  end.

Section WithEnv.

Variable E : Env.

(** [FaissStore.load(vectorDBPath, embeddings)] *)
Definition FaissStore_load : M VectorStore :=
  await (fun w =>
    (w, match vectorDB w with
        | Present (Some d) => Ok (FaissStore d)
        | _ => Err (js "Could not load the saved store")
        end)).

(** [FaissStore.fromDocuments] and [MemoryVectorStore.fromDocuments]: one
    pass of the embedding oracle over the documents. *)
Definition fromDocuments (mk : list Document -> VectorStore)
    (d : list Document) : M VectorStore :=
  await (fun w =>
    (log_embedPass d w, error_result (embed_documents_error E d) (mk d))).

(** [vectorStore.save(vectorDBPath)]: the directory is made where it is
    missing, then the index and the documents are written into it.  A
    directory in which the writing failed holds no loadable store. *)
Definition save (v : VectorStore) : M unit :=
  await (fun w =>
    match save_fault E with
    | Some (CannotMakeDirectory e) => (w, Err e)
    | Some (CannotWriteIndex e) => (set_vectorDB (Present None) w, Err e)
    | None => (set_vectorDB (Present (Some (storeDocs v))) w, Ok tt)
    end).

(** [vectorStore.similaritySearch(query, k)]: the [k] documents closest
    to the query, closest first. *)
Definition similaritySearch (v : VectorStore) (query : jsstring) (k : nat)
  : M (list Document) :=
  await (fun w =>
    (w, error_result (embed_query_error E query)
          (firstn k (sort_by (score E query) (storeDocs v))))).

End WithEnv.

End Model.
Import Model.

(* ================================================================== *)
(** * services/s3Service.js *)
(* ================================================================== *)

Module S3Service.

Section WithEnv.

Variable E : Env.

Definition send_ListObjectsV2 : M (option (list S3Item)) :=
  await (fun w => (w, s3_list E)).

Definition send_GetObject (k : jsstring) : M BodyStream :=
  await (fun w => (w, s3_get E k)).

Definition listAllObjects : M (list S3Item) :=
  try_catch
    (contents <- send_ListObjectsV2 ;;
     match contents with
     | Some items =>
       Ret (map (fun item =>
                   mkS3Item (key item) (size item) (itemLastModified item))
                items)
     | None =>
       Throw (js "Cannot read properties of undefined (reading 'map')")
     end)
    (fun error =>
       Throw (js "S3 객체 목록을 조회하는 중 오류가 발생했습니다: " ++ error)).

(** [extensions.includes(ext)] *)
Definition includes (extensions : list jsstring) (ext : jsstring) : bool :=
  existsb (jseqb ext) extensions.

Definition has_extension (extensions : list jsstring) (obj : S3Item)
  : bool :=
  let ext := toLowerCase (Path.extname (key obj)) in
  includes extensions ext.

Definition listObjectsByExtension (extensions : list jsstring)
  : M (list S3Item) :=
  try_catch
    (allObjects <- listAllObjects ;;
     Ret (filter (has_extension extensions) allObjects))
    (fun error => Throw error).

(** The promise of [streamToString] settles when the stream ends, and
    rejects when the stream emits ['error']. *)
Definition streamToString (stream : BodyStream) : M jsstring :=
  await (fun w =>
    (w, match stream with
        | Delivers content => Ok content
        | Breaks _ e => Err e
        end)).

(** The promise of [streamToString] is returned as it is, not awaited
    inside the [try]: its rejection reaches the caller without passing
    through the [catch] block. *)
Definition getObjectContent (k : jsstring) : M jsstring :=
  response <-
    try_catch
      (send_GetObject k)
      (fun error =>
         Throw (js "S3 객체 내용을 가져오는 중 오류가 발생했습니다: "
                  ++ error)) ;;
  streamToString response.

(** [path.join(tempDir, name)] is the transient directory itself, or the
    one above it, when the name is empty, [.] or [..]. *)
Definition names_directory (name : jsstring) : bool :=
  jseqb name [] || jseqb name [Path.DOT]
  || jseqb name [Path.DOT; Path.DOT].

Definition EISDIR (path : jsstring) : error :=
  js "EISDIR: illegal operation on a directory, open '" ++ path ++ js "'".

(** The fault of [fs.createWriteStream(path)] for this name. *)
Definition createWriteStream_fault (name path : jsstring)
  : option WriteFault :=
  if names_directory name then Some (OpenFails (EISDIR path))
  else write_fault E path.

(** [body.pipe(writeStream)] up to the end of the transfer, and the
    promise built on the write stream.  The file is opened before the
    body arrives and holds what has arrived when the transfer stops.
    ['finish'] resolves the promise with the path and ['error'] of the
    write stream rejects it; ['error'] of the body has no listener.  A
    write stream that fails ends the transfer: the body is read no
    further. *)
Definition pipe_to_file (name path : jsstring) (body : BodyStream)
  : M jsstring :=
  ended <-
    await (fun w =>
      match write_stream (createWriteStream_fault name path)
              (arriving body) with
      | NotOpened e => (w, Err e)
      | CutShort content e =>
        (set_tempFiles (write_file path content (tempFiles w)) w, Err e)
      | Took content =>
        (set_tempFiles (write_file path content (tempFiles w)) w, Ok body)
      end) ;;
  match ended with
  | Delivers _ => Ret path
  | Breaks _ e => Crash e
  end.

(** The body is piped into a file of the transient directory named after
    the base name of the key; the path is the result.  The directory is
    taken to be there or to be makeable.  As in [getObjectContent], the
    promise is returned without being awaited inside the [try]. *)
Definition downloadObjectToTemp (k : jsstring) : M jsstring :=
  response <-
    try_catch
      (send_GetObject k)
      (fun error =>
         Throw (js "S3 객체를 다운로드하는 중 오류가 발생했습니다: "
                  ++ error)) ;;
  let tempFilePath := Path.join (tempDir E) (Path.basename k) in
  pipe_to_file (Path.basename k) tempFilePath response.

End WithEnv.

End S3Service.

(* ================================================================== *)
(** * services/ragService.js *)
(* ================================================================== *)

Module RagService.

Definition SUPPORTED_EXTENSIONS : list jsstring :=
  [js ".pdf"; js ".txt"; js ".md"; js ".docx"; js ".html"].

(** The single entry of the store built when there is nothing to index. *)
Definition sentinelDocument : Document :=
  mkDocument (js "No documents available") noMetadata.

Record ReindexResult : Type := mkReindexResult {
  success : bool;
  message : jsstring
}.

Section WithEnv.

Variable E : Env.

Definition splitDocumentsIntoChunks (documents : list Document)
  : M (list Document) :=
  await (fun w => (w, split_documents E documents)).

(** [new PDFLoader(tempFilePath).load()] and its DOCX counterpart read
    the transient file. *)
Definition loader_load
    (load : jsstring -> jsstring -> result (list Document))
    (tempFilePath : jsstring) : M (list Document) :=
  await (fun w =>
    (w, match lookup_file tempFilePath (tempFiles w) with
        | Some content => load tempFilePath content
        | None => Err (js "ENOENT: no such file or directory")
        end)).

(** The body of the [try] block for one object of the listing.
    [documents] is the array filled so far. *)
Definition processObject (obj : S3Item) (documents : list Document)
  : M (list Document) :=
  let ext := toLowerCase (Path.extname (key obj)) in
  st <-
    (if jseqb ext (js ".pdf") then
       tempFilePath <- S3Service.downloadObjectToTemp E (key obj) ;;
       pdfDocs <- loader_load (pdf_load E) tempFilePath ;;
       Ret (documents ++ pdfDocs, Some tempFilePath)
     else if jseqb ext (js ".docx") then
       tempFilePath <- S3Service.downloadObjectToTemp E (key obj) ;;
       docxDocs <- loader_load (docx_load E) tempFilePath ;;
       Ret (documents ++ docxDocs, Some tempFilePath)
     else
       content <- S3Service.getObjectContent E (key obj) ;;
       Ret (documents
              ++ [mkDocument content
                    (mkMetadata (Some (key obj))
                       (Some (itemLastModified obj)) None)],
            None)) ;;
  let '(documents', tempFilePath) := st in
  (* clean up the transient file *)
  (match tempFilePath with
   | Some p =>
     if truthy tempFilePath then
       present <- existsSync_temp p ;;
       if present then unlinkSync p else Ret tt
     else Ret tt
   | None => Ret tt
   end) ;;;
  Ret documents'.

(** [for (const obj of objects) { try { ... } catch (error) { continue } }] *)
Fixpoint forEachObject (objects : list S3Item) (documents : list Document)
  : M (list Document) :=
  match objects with
  | [] => Ret documents
  | obj :: objects' =>
    documents' <- try_catch (processObject obj documents)
                    (fun error => Ret documents) ;;
    forEachObject objects' documents'
  end.

Definition loadDocumentsFromS3 : M (list Document) :=
  try_catch
    (objects <- S3Service.listObjectsByExtension E SUPPORTED_EXTENSIONS ;;
     match objects with
     | [] => Ret []
     | _ :: _ => forEachObject objects []
     end)
    (fun error =>
       Throw (js "S3에서 문서를 로드하는 중 오류가 발생했습니다: " ++ error)).

Definition initializeVectorStore : M bool :=
  try_catch
    (present <- existsSync_vectorDB ;;
     loaded <-
       (if present : bool then
          try_catch
            (v <- FaissStore_load ;;
             modify (set_vectorStore (Some v)) ;;;
             Ret true)
            (fun error => Ret false)
        else Ret false) ;;
     if loaded : bool then Ret true
     else
       documents <- loadDocumentsFromS3 ;;
       match documents with
       | [] =>
         v <- fromDocuments E MemoryVectorStore [sentinelDocument] ;;
         modify (set_vectorStore (Some v)) ;;;
         Ret false
       | _ :: _ =>
         chunks <- splitDocumentsIntoChunks documents ;;
         v <- fromDocuments E FaissStore chunks ;;
         modify (set_vectorStore (Some v)) ;;;
         save E v ;;;
         Ret true
       end)
    (fun error =>
       Throw (js "벡터 저장소를 초기화하는 중 오류가 발생했습니다: "
                ++ error)).

(** [topK] is [None] when the caller leaves it out; it then defaults
    to 5. *)
Definition retrieveRelevantDocuments (query : jsstring)
    (topK : option nat) : M (list Document) :=
  try_catch
    (w <- get ;;
     (match vectorStore w with
      | None => initializeVectorStore ;;; Ret tt
      | Some _ => Ret tt
      end) ;;;
     w' <- get ;;
     match vectorStore w' with
     | Some v =>
       similaritySearch E v query
         (match topK with Some k => k | None => 5%nat end)
     | None =>
       Throw (js "Cannot read properties of null (reading 'similaritySearch')")
     end)
    (fun error =>
       Throw (js "관련 문서를 검색하는 중 오류가 발생했습니다: " ++ error)).

Definition reindexDocuments : M ReindexResult :=
  try_catch
    (present <- existsSync_vectorDB ;;
     (if present : bool then rmSync_vectorDB else Ret tt) ;;;
     modify (set_vectorStore None) ;;;
     result <- initializeVectorStore ;;
     Ret (mkReindexResult result
            (if result : bool then js "문서 재색인화가 완료되었습니다."
             else js "색인화할 문서가 없습니다.")))
    (fun error =>
       Throw (js "문서를 재색인화하는 중 오류가 발생했습니다: " ++ error)).

End WithEnv.

End RagService.

(* ================================================================== *)
(** * services/openaiService.js *)
(* ================================================================== *)

Module OpenaiService.

Record Source : Type := mkSource {
  title : jsstring;
  content : jsstring
}.

Record AnswerRecord : Type := mkAnswer {
  answer : jsstring;
  sources : list Source
}.

Definition createSystemPrompt : jsstring :=
  js "당신은 기업 내부 문서 기반 지식을 활용하여 질문에 답변하는 AI 어시스턴트입니다.
다음 가이드라인을 따라주세요:

1. 제공된 문서의 정보를 기반으로 정확하게 답변하세요.
2. 문서에서 찾을 수 없는 정보에 대해서는 모른다고 솔직하게 말하세요.
3. 답변 시 참조한 문서의 출처를 함께 제공하세요.
4. 전문 용어나 복잡한 개념이 있다면 쉽게 설명해주세요.
5. 공손하고 전문적인 어조를 유지하세요.".

(** The answer given when nothing was retrieved. *)
Definition apology : jsstring :=
  js "죄송합니다. 질문과 관련된 정보를 찾을 수 없습니다. 다른 질문이나 키워드로 시도해 주세요.".

Definition NEWLINE : jsstring := [10%N].

(** [a || b] on a string that may be undefined. *)
Definition or_else (a : option jsstring) (b : jsstring) : jsstring :=
  match a with
  | Some (c :: s) => c :: s
  | _ => b
  end.

(** The label that stands in for a missing source: the word for
    "document" and the 1-based rank. *)
Definition rankLabel (i : Z) : jsstring :=
  js "문서 " ++ toString10 (i + 1).

Fixpoint mapi_from {A B} (f : A -> Z -> B) (i : Z) (l : list A) : list B :=
  match l with
  | [] => []
  | a :: l' => f a i :: mapi_from f (i + 1) l'
  end.

(** [Array.prototype.join] *)
Fixpoint join (sep : jsstring) (l : list jsstring) : jsstring :=
  match l with
  | [] => []
  | [a] => a
  | a :: l' => a ++ sep ++ join sep l'
  end.

Definition context (doc : Document) (i : Z) : jsstring :=
  let source := or_else (source (metadata doc)) (rankLabel i) in
  js "문서 [" ++ toString10 (i + 1) ++ js "] (출처: " ++ source ++ js "):"
    ++ NEWLINE ++ pageContent doc ++ NEWLINE.

Definition buildPrompt (query : jsstring) (relevantDocuments : list Document)
  : jsstring :=
  let contexts := mapi_from context 0 relevantDocuments in
  NEWLINE ++ createSystemPrompt ++ js "

다음은 당신이 질문에 답하기 위해 참조할 수 있는 관련 문서입니다:
" ++ join NEWLINE contexts ++ js "

사용자 질문: " ++ query ++ js "

답변 형식:
1. 질문에 직접적으로 답변해주세요.
2. 답변 후 참조한 문서 번호를 [문서 1, 문서 3]과 같은 형식으로 제시해주세요.
".

(** A literal prefix of a pattern. *)
Definition lit (s : jsstring) (r : regex) : regex :=
  fold_right (fun c r' => Seq (Chr (is_char c)) r') r s.

(** The pattern of line 63, flag [i]: an opening bracket, the word 문서,
    [\s+], then capture 1, which is [\d+] followed by any number of
    groups [,\s*\d+], then a closing bracket.  No character of the
    pattern has a second case, so the flag changes nothing. *)
Definition sourcesPattern : regex :=
  lit (js "[문서")
    (Seq (Plus (Chr is_space))
       (Seq (Group
               (Seq (Plus (Chr is_digit))
                  (Star (Seq (Chr (is_char COMMA))
                           (Seq (Star (Chr is_space))
                              (Plus (Chr is_digit)))))))
          (Chr (is_char RBRACKET)))).

(** [/,\s*/] *)
Definition separatorPattern : regex :=
  Seq (Chr (is_char COMMA)) (Star (Chr is_space)).

(** The 0-based indices cited by the answer; [None] is [NaN]. *)
Definition sourceIndicesOf (answerText : jsstring) : list (option Z) :=
  match search sourcesPattern answerText with
  | Some sourcesMatch =>
    match cap1 sourcesMatch with
    | Some (c :: g) =>
      map (fun num => option_map (fun n => (n - 1)%Z) (parseInt (trim num)))
        (split separatorPattern (c :: g))
    | _ => []
    end
  | None => []
  end.

(** [index >= 0 && index < relevantDocuments.length] *)
Definition inRange (relevantDocuments : list Document) (index : option Z)
  : bool :=
  match index with
  | Some i => (0 <=? i)%Z && (i <? Z.of_nat (length relevantDocuments))%Z
  | None => false
  end.

(** [relevantDocuments[index]] *)
Definition at_index (relevantDocuments : list Document) (index : option Z)
  : option Document :=
  match index with
  | Some i =>
    if (i <? 0)%Z then None else nth_error relevantDocuments (Z.to_nat i)
  | None => None
  end.

Definition ELLIPSIS : jsstring := js "...".

(** The body of the [map]: reading a property of a missing element
    throws. *)
Definition sourceOf (relevantDocuments : list Document) (index : option Z)
  : result Source :=
  match at_index relevantDocuments index, index with
  | Some doc, Some i =>
    Ok (mkSource (or_else (source (metadata doc)) (rankLabel i))
          (substring0 150 (pageContent doc) ++ ELLIPSIS))
  | _, _ =>
    Err (js "Cannot read properties of undefined (reading 'metadata')")
  end.

Fixpoint mapM {A B} (f : A -> result B) (l : list A) : result (list B) :=
  match l with
  | [] => Ok []
  | a :: l' =>
    match f a with
    | Err e => Err e
    | Ok b =>
      match mapM f l' with
      | Err e => Err e
      | Ok bs => Ok (b :: bs)
      end
    end
  end.

(** Lines 62 to 78: from the answer text to the source list. *)
Definition extractSources (answerText : jsstring)
    (relevantDocuments : list Document) : result (list Source) :=
  mapM (sourceOf relevantDocuments)
    (filter (inRange relevantDocuments) (sourceIndicesOf answerText)).

Section WithEnv.

Variable E : Env.

(** [model.invoke(prompt)], of which the source reads the [content]. *)
Definition model_invoke (prompt : jsstring) : M jsstring :=
  await (fun w => (log_llmCall prompt w, llm E prompt)).

(** [relevantDocuments] is [None] when the argument is missing. *)
Definition generateAnswer (query : jsstring)
    (relevantDocuments : option (list Document)) : M AnswerRecord :=
  try_catch
    (match relevantDocuments with
     | None | Some [] => Ret (mkAnswer apology [])
     | Some (d :: ds) =>
       let prompt := buildPrompt query (d :: ds) in
       responseContent <- model_invoke prompt ;;
       match responseContent with
       | [] =>
         (* [response.content || response] is the response object *)
         Throw (js "answerText.match is not a function")
       | _ :: _ =>
         let answerText := responseContent in
         sources <- lift_result (extractSources answerText (d :: ds)) ;;
         Ret (mkAnswer answerText sources)
       end
     end)
    (fun error =>
       Throw (js "답변을 생성하는 중 오류가 발생했습니다: " ++ error)).

End WithEnv.

End OpenaiService.

(* ================================================================== *)
(** * server.js *)
(* ================================================================== *)

Module Server.

(** What a handler sends: the status code and the fields of the JSON
    body (time stamps left out). *)
Inductive Response : Type :=
| ChatReply (answer : jsstring) (sources : list OpenaiService.Source)
| DocumentsReply (count : nat) (documents : list S3Item)
| ReindexReply (success : bool) (message : jsstring)
| StatusReply (initialized : bool)
| ErrorReply (status : N) (error : jsstring).

Section WithEnv.

Variable E : Env.

(** [query] is [None] when the body has no string under that name. *)
Definition handleQuestion (query : option jsstring) : M Response :=
  try_catch
    (match query with
     | Some (c :: q) =>
       if jseqb (trim (c :: q)) []
       then Ret (ErrorReply 400 (js "유효한 질문을 입력해주세요."))
       else
         w <- get ;;
         (if isInitialized w then Ret tt
          else
            b <- RagService.initializeVectorStore E ;;
            modify (set_isInitialized b)) ;;;
         relevantDocuments <-
           RagService.retrieveRelevantDocuments E (c :: q) None ;;
         r <- OpenaiService.generateAnswer E (c :: q)
                (Some relevantDocuments) ;;
         Ret (ChatReply (OpenaiService.answer r) (OpenaiService.sources r))
     | _ => Ret (ErrorReply 400 (js "유효한 질문을 입력해주세요."))
     end)
    (fun error =>
       Ret (ErrorReply 500
              (js "질문을 처리하는 중 오류가 발생했습니다: " ++ error))).

Definition listDocuments : M Response :=
  try_catch
    (documents <-
       S3Service.listObjectsByExtension E
         [js ".pdf"; js ".txt"; js ".md"; js ".docx"; js ".html"] ;;
     Ret (DocumentsReply (length documents) documents))
    (fun error =>
       Ret (ErrorReply 500
              (js "문서 목록을 조회하는 중 오류가 발생했습니다: " ++ error))).

Definition reindexDocuments : M Response :=
  try_catch
    (result <- RagService.reindexDocuments E ;;
     modify (set_isInitialized (RagService.success result)) ;;;
     Ret (ReindexReply (RagService.success result)
            (RagService.message result)))
    (fun error =>
       Ret (ErrorReply 500
              (js "문서를 재색인화하는 중 오류가 발생했습니다: " ++ error))).

Definition checkStatus : M Response :=
  w <- get ;;
  Ret (StatusReply (isInitialized w)).

(** The callback of [app.listen]. *)
Definition onListen : M unit :=
  try_catch
    (RagService.initializeVectorStore E ;;;
     modify (set_isInitialized true))
    (fun error => Ret tt).

End WithEnv.

(** The process right after start: nothing in memory, and the directory
    at [vectorDBPath] as found. *)
Definition initialWorld (disk : DiskState) : World :=
  mkWorld None false disk [] [] [].

End Server.

(* ================================================================== *)
(** * Scenarios *)
(* ================================================================== *)

(** Concrete buckets and oracles on which the services are run. *)

Module Scenario.

Definition item (k : string) : S3Item := mkS3Item (utf16 k) 1 0.

Definition doc (text src : string) : Document :=
  mkDocument (utf16 text) (mkMetadata (Some (utf16 src)) None None).

(** Every object has the same short body, which arrives in full, and
    every write to disk goes well; every PDF and DOCX is corrupt; the
    splitter has nothing to cut; the embedding oracle never fails and
    ranks by length of text; the generation oracle always gives the same
    answer. *)
Definition envWith (listing : result (option (list S3Item)))
    (reply : jsstring) : Env :=
  mkEnv listing
    (fun k => Ok (Delivers (js "body of " ++ k)))
    (fun _ => None)
    (fun _ _ => Err (js "Invalid PDF structure"))
    (fun _ _ => Err (js "Could not find the main document part"))
    (fun docs => Ok docs)
    (fun _ => None)
    (fun _ => None)
    (fun _ d => Z.of_nat (length (pageContent d)))
    None
    (fun _ => Ok reply)
    (js "/app/temp").

(** A bucket with two text documents, a corrupt PDF between them and an
    object of an unsupported kind. *)
Definition mixedBucket : list S3Item :=
  Eval vm_compute in
  [item "notes.txt"; item "reports/broken.pdf"; item "guide.md";
   item "logo.png"].

Definition mixedEnv : Env :=
  envWith (Ok (Some mixedBucket)) (js "첫 문서에 따르면 그렇습니다. [문서 1, 3]").

(** A bucket that holds nothing the loader supports. *)
Definition unsupportedBucket : list S3Item :=
  Eval vm_compute in [item "logo.png"].

Definition emptyEnv : Env :=
  envWith (Ok (Some unsupportedBucket)) (js "문서가 없습니다.").

(** A bucket with the corrupt PDF alone. *)
Definition brokenPdf : S3Item :=
  Eval vm_compute in item "reports/broken.pdf".

Definition brokenPdfEnv : Env :=
  envWith (Ok (Some [brokenPdf])) (js "문서가 없습니다.").

Definition coldStart : World := Server.initialWorld Missing.

Definition question : jsstring := js "휴가 규정이 어떻게 되나요?".

(** Two retrieved chunks. *)
Definition twoChunks : list Document :=
  Eval vm_compute in
  [doc "Annual leave is fifteen days." "policies/leave.txt";
   doc "Expenses are reimbursed monthly." "policies/expenses.md"].

(** The world in which the placeholder store has just been built. *)
Definition placeholderWorld : World :=
  Eval vm_compute in
  fst (run (RagService.initializeVectorStore emptyEnv) coldStart).

End Scenario.

Unset Implicit Arguments.

(* ================================================================== *)
(** * Specification-side definitions *)
(* ================================================================== *)

Module Ingestion.
Section WithEnv.
Variable E : Env.

Definition tempPathOf (k : jsstring) : jsstring :=
  Path.join (tempDir E) (Path.basename k).

Definition textDocument (obj : S3Item) (text : jsstring) : Document :=
  mkDocument text
    (mkMetadata (Some (key obj)) (Some (itemLastModified obj)) None).

Definition downloadError (e : error) : error :=
  js "S3 객체를 다운로드하는 중 오류가 발생했습니다: " ++ e.

Definition contentError (e : error) : error :=
  js "S3 객체 내용을 가져오는 중 오류가 발생했습니다: " ++ e.

(** What the write stream on the transient file of [k] does with a
    body. *)
Definition written (k : jsstring) (body : BodyStream) : Written :=
  write_stream
    (S3Service.createWriteStream_fault E (Path.basename k) (tempPathOf k))
    (arriving body).

(** A binary document: the download into the transient file, then the
    parse of that file. *)
Definition binaryOutcome
    (load : jsstring -> jsstring -> result (list Document)) (k : jsstring)
  : completion (list Document) :=
  match s3_get E k with
  | Err e => Err (downloadError e)
  | Ok body =>
    match written k body with
    | NotOpened e => Err e
    | CutShort _ e => Err e
    | Took content =>
      match body with
      | Delivers _ => load (tempPathOf k) content
      | Breaks _ e => Crashes e
      end
    end
  end.

(** A text document: the body read into a string. *)
Definition textOutcome (obj : S3Item) : completion (list Document) :=
  match s3_get E (key obj) with
  | Err e => Err (contentError e)
  | Ok (Delivers content) => Ok [textDocument obj content]
  | Ok (Breaks _ e) => Err e
  end.

(** How the [try] block ends for one object, as a function of the
    collaborators alone. *)
Definition outcome (obj : S3Item) : completion (list Document) :=
  let ext := toLowerCase (Path.extname (key obj)) in
  if jseqb ext (js ".pdf") then binaryOutcome (pdf_load E) (key obj)
  else if jseqb ext (js ".docx") then binaryOutcome (docx_load E) (key obj)
  else textOutcome obj.

Definition contribution (obj : S3Item) : list Document :=
  match outcome obj with
  | Settles (Ok ds) => ds
  | _ => []
  end.

(** The objects the pass works on, or the failure of the listing. *)
Definition supported : result (list S3Item) :=
  match s3_list E with
  | Ok (Some items) =>
    Ok (filter (S3Service.has_extension RagService.SUPPORTED_EXTENSIONS)
          items)
  | Ok None =>
    Err (js "S3 객체 목록을 조회하는 중 오류가 발생했습니다: "
           ++ js "Cannot read properties of undefined (reading 'map')")
  | Err e => Err (js "S3 객체 목록을 조회하는 중 오류가 발생했습니다: " ++ e)
  end.

(** The uncaught error of the first object, in order, whose processing
    crashes. *)
Fixpoint firstCrash (objects : list S3Item) : option error :=
  match objects with
  | [] => None
  | obj :: objects' =>
    match outcome obj with
    | Crashes e => Some e
    | Settles _ => firstCrash objects'
    end
  end.

(** A pass over these objects. *)
Definition pass (objects : list S3Item) : completion (list Document) :=
  match firstCrash objects with
  | Some e => Crashes e
  | None => Ok (flat_map contribution objects)
  end.

(** The documents of a whole pass. *)
Definition ingested : completion (list Document) :=
  match supported with
  | Ok objects => pass objects
  | Err e => Err (js "S3에서 문서를 로드하는 중 오류가 발생했습니다: " ++ e)
  end.

Definition initError (e : error) : error :=
  js "벡터 저장소를 초기화하는 중 오류가 발생했습니다: " ++ e.

(** The world after a failed [save]. *)
Definition afterSaveFault (f : SaveFault) (w : World) : World :=
  match f with
  | CannotMakeDirectory _ => w
  | CannotWriteIndex _ => set_vectorDB (Present None) w
  end.

Definition saveError (f : SaveFault) : error :=
  match f with
  | CannotMakeDirectory e => e
  | CannotWriteIndex e => e
  end.

(** The build path of initialization, read as a function of the world
    it starts in, given the transient files [t] the pass leaves behind. *)
Definition buildResult (t : list (jsstring * jsstring)) (w : World)
  : World * completion bool :=
  let w1 := set_tempFiles t w in
  match ingested with
  | Crashes e => (w1, Crashes e)
  | Settles (Err e) => (w1, Err (initError e))
  | Settles (Ok []) =>
    let w2 := log_embedPass [RagService.sentinelDocument] w1 in
    match embed_documents_error E [RagService.sentinelDocument] with
    | Some e => (w2, Err (initError e))
    | None =>
      (set_vectorStore
         (Some (MemoryVectorStore [RagService.sentinelDocument])) w2,
       Ok false)
    end
  | Settles (Ok (d :: ds)) =>
    match split_documents E (d :: ds) with
    | Err e => (w1, Err (initError e))
    | Ok chunks =>
      let w2 := log_embedPass chunks w1 in
      match embed_documents_error E chunks with
      | Some e => (w2, Err (initError e))
      | None =>
        let w3 := set_vectorStore (Some (FaissStore chunks)) w2 in
        match save_fault E with
        | Some f => (afterSaveFault f w3, Err (initError (saveError f)))
        | None => (set_vectorDB (Present (Some chunks)) w3, Ok true)
        end
      end
    end
  end.

(** Initialization: a loadable saved store is loaded; anything else
    leads to the build path. *)
Definition initResult (t : list (jsstring * jsstring)) (w : World)
  : World * completion bool :=
  match vectorDB w with
  | Present (Some d) => (set_vectorStore (Some (FaissStore d)) w, Ok true)
  | _ => buildResult t w
  end.

End WithEnv.
End Ingestion.

Import Ingestion.

Definition loadable (d : DiskState) : bool :=
  match d with
  | Present (Some _) => true
  | _ => false
  end.

Definition reindexError (e : error) : error :=
  js "문서를 재색인화하는 중 오류가 발생했습니다: " ++ e.

Definition reindexMessage (result : bool) : jsstring :=
  if result then js "문서 재색인화가 완료되었습니다."
  else js "색인화할 문서가 없습니다.".

(** The world once the saved store is deleted and the store in memory
    dropped. *)
Definition cleared (w : World) : World :=
  set_vectorStore None (set_vectorDB Missing w).

Definition servingWorld : World :=
  mkWorld (Some (FaissStore Scenario.twoChunks)) true
    (Present (Some Scenario.twoChunks)) [] [] [].

Definition effectiveTopK (topK : option nat) : nat :=
  match topK with
  | Some k => k
  | None => 5
  end.

Module Citation.

(** A cited number as written: a non-empty run of decimal digits. *)
Definition number (ds : jsstring) : Prop :=
  ds <> [] /\ forallb is_digit ds = true.

Definition spaces (ws : jsstring) : Prop := forallb is_space ws = true.

(** The numbers after the first: a comma, optional white space, digits. *)
Definition renderMore (more : list (jsstring * jsstring)) : jsstring :=
  flat_map (fun p => COMMA :: fst p ++ snd p) more.

(** The text of capture 1. *)
Definition captured (d1 : jsstring) (more : list (jsstring * jsstring))
  : jsstring :=
  d1 ++ renderMore more.

(** A citation the pattern accepts: the opening bracket and the word,
    white space, the numbers, the closing bracket. *)
Definition citation (ws1 d1 : jsstring) (more : list (jsstring * jsstring))
  : jsstring :=
  js "[문서" ++ ws1 ++ captured d1 more ++ [RBRACKET].

(** The 0-based index a written number stands for. *)
Definition citedIndex (ds : jsstring) : Z :=
  (Z.of_N (digits_value 10 ds) - 1)%Z.

Definition inRangeZ (docs : list Document) (i : Z) : bool :=
  (0 <=? i)%Z && (i <? Z.of_nat (length docs))%Z.

Definition emptyDocument : Document := mkDocument [] noMetadata.

(** The source entry of the chunk at a 0-based index. *)
Definition citedSource (docs : list Document) (i : Z)
  : OpenaiService.Source :=
  let doc := nth (Z.to_nat i) docs emptyDocument in
  OpenaiService.mkSource
    (OpenaiService.or_else (source (metadata doc))
       (OpenaiService.rankLabel i))
    (firstn 150 (pageContent doc) ++ js "...").

End Citation.

Import Citation.

Definition stops (p : N -> bool) (s : jsstring) : Prop :=
  match s with
  | [] => True
  | c :: _ => p c = false
  end.

Definition wellFormedMore (more : list (jsstring * jsstring)) : Prop :=
  Forall (fun p => spaces (fst p) /\ number (snd p)) more.

(** The repeated group of the citation pattern. *)
Definition moreGroup : regex :=
  Seq (Chr (is_char COMMA)) (Seq (Star (Chr is_space)) (Plus (Chr is_digit))).

Definition noBracket (pre : jsstring) : Prop :=
  forallb (fun c => negb (c =? LBRACKET)%N) pre = true.

Definition promptFormatAnswer : jsstring :=
  js "첫 문서에 따르면 그렇습니다. [문서 1, 문서 3]".
Definition promptFormatEnv : Env :=
  Scenario.envWith (Ok (Some Scenario.mixedBucket)) promptFormatAnswer.




Definition validQuery (query : option jsstring) : bool :=
  match query with
  | Some (c :: q) => negb (jseqb (trim (c :: q)) [])
  | _ => false
  end.

Definition questionError (e : error) : error :=
  js "질문을 처리하는 중 오류가 발생했습니다: " ++ e.

Definition invalidQuestion : Server.Response :=
  Server.ErrorReply 400 (js "유효한 질문을 입력해주세요.").

(** The lazy initialization step of the question handler. *)
Definition ensureInitialized (E : Env) (w : World)
  : World * completion unit :=
  if isInitialized w then (w, Ok tt)
  else
    match run (RagService.initializeVectorStore E) w with
    | (wi, Settles (Ok b)) => (set_isInitialized b wi, Ok tt)
    | (wi, Settles (Err e)) => (wi, Err e)
    | (wi, Crashes e) => (wi, Crashes e)
    end.


(** ** Further scenarios and readings *)

Definition listingError (e : error) : error :=
  js "S3 객체 목록을 조회하는 중 오류가 발생했습니다: " ++ e.

Definition supportedKey (extensions : list jsstring) (k : jsstring) : Prop :=
  In (toLowerCase (Path.extname k)) extensions.

Definition listDocumentsError (e : error) : error :=
  js "문서 목록을 조회하는 중 오류가 발생했습니다: " ++ e.

Definition reindexHandlerError (e : error) : error :=
  js "문서를 재색인화하는 중 오류가 발생했습니다: " ++ e.

(** A bucket whose listing comes back without [Contents]. *)
Definition emptyListingEnv : Env := Scenario.envWith (Ok None) [].

Definition missingContents : error :=
  js "Cannot read properties of undefined (reading 'map')".

Definition loadError (e : error) : error :=
  js "S3에서 문서를 로드하는 중 오류가 발생했습니다: " ++ e.

Definition extensionOf (obj : S3Item) : jsstring :=
  toLowerCase (Path.extname (key obj)).

(** The transient files after a binary document has been processed. *)
Definition binaryAfter (E : Env)
    (load : jsstring -> jsstring -> result (list Document)) (k : jsstring)
    (fs : list (jsstring * jsstring)) : list (jsstring * jsstring) :=
  let path := tempPathOf E k in
  match s3_get E k with
  | Err _ => fs
  | Ok body =>
    match written E k body with
    | NotOpened _ => fs
    | CutShort content _ => write_file path content fs
    | Took content =>
      match body with
      | Breaks _ _ => write_file path content fs
      | Delivers _ =>
        match load path content with
        | Ok _ => remove_file path (write_file path content fs)
        | Err _ => write_file path content fs
        end
      end
    end
  end.

(** The transient files after one object has been processed. *)
Definition tempAfter (E : Env) (obj : S3Item)
    (fs : list (jsstring * jsstring)) : list (jsstring * jsstring) :=
  if jseqb (extensionOf obj) (js ".pdf")
  then binaryAfter E (pdf_load E) (key obj) fs
  else if jseqb (extensionOf obj) (js ".docx")
  then binaryAfter E (docx_load E) (key obj) fs
  else fs.

(** The transient files after a pass, which ends at the first object
    whose processing crashes. *)
Fixpoint passAfter (E : Env) (objects : list S3Item)
    (fs : list (jsstring * jsstring)) : list (jsstring * jsstring) :=
  match objects with
  | [] => fs
  | obj :: objects' =>
    match outcome E obj with
    | Crashes _ => tempAfter E obj fs
    | Settles _ => passAfter E objects' (tempAfter E obj fs)
    end
  end.

(** The result of the [try] block for one object, given the documents
    gathered before it. *)
Definition gathered (docs : list Document)
    (c : completion (list Document)) : completion (list Document) :=
  match c with
  | Settles (Ok ds) => Ok (docs ++ ds)
  | Settles (Err e) => Err e
  | Crashes e => Crashes e
  end.

(** The object is a binary document that was downloaded in full, with
    this body, and did not parse. *)
Definition parseFailed (E : Env) (obj : S3Item) (body : jsstring) : Prop :=
  s3_get E (key obj) = Ok (Delivers body)
  /\ written E (key obj) (Delivers body) = Took body
  /\ ((extensionOf obj = js ".pdf"
       /\ exists e, pdf_load E (tempPathOf E (key obj)) body = Err e)
      \/ (extensionOf obj = js ".docx"
          /\ exists e, docx_load E (tempPathOf E (key obj)) body = Err e)).

(** A bucket with one PDF that parses into one page. *)
Definition parsingEnv : Env :=
  mkEnv (Ok (Some [Scenario.brokenPdf]))
    (fun k => Ok (Delivers (js "body of " ++ k)))
    (fun _ => None)
    (fun p _ =>
       Ok [mkDocument (js "page one") (mkMetadata (Some p) None (Some 1%N))])
    (fun _ _ => Err (js "Could not find the main document part"))
    (fun docs => Ok docs)
    (fun _ => None)
    (fun _ => None)
    (fun _ d => Z.of_nat (length (pageContent d)))
    None
    (fun _ => Ok (js "문서가 없습니다."))
    (js "/app/temp").

Definition infix (x s : jsstring) : Prop := exists a b, s = a ++ x ++ b.

Definition retrieveError (e : error) : error :=
  js "관련 문서를 검색하는 중 오류가 발생했습니다: " ++ e.

(** The transient files after a whole pass. *)
Definition loadAfter (E : Env) (fs : list (jsstring * jsstring))
  : list (jsstring * jsstring) :=
  match supported E with
  | Ok objects => passAfter E objects fs
  | Err _ => fs
  end.

(** A bucket in which the body of the PDF breaks off in transit: the
    connection is reset after the first bytes. *)
Definition notesTxt : S3Item :=
  Eval vm_compute in Scenario.item "notes.txt".
Definition cutPdf : S3Item :=
  Eval vm_compute in Scenario.item "reports/cut.pdf".
Definition guideMd : S3Item :=
  Eval vm_compute in Scenario.item "guide.md".

Definition cutBucket : list S3Item := [notesTxt; cutPdf; guideMd].

Definition cutEnv : Env :=
  mkEnv (Ok (Some cutBucket))
    (fun k =>
       if jseqb k (key cutPdf) then Ok (Breaks (js "%PDF-1.7") (js "aborted"))
       else Ok (Delivers (js "body of " ++ k)))
    (fun _ => None)
    (fun _ _ => Err (js "Invalid PDF structure"))
    (fun _ _ => Err (js "Could not find the main document part"))
    (fun docs => Ok docs)
    (fun _ => None)
    (fun _ => None)
    (fun _ d => Z.of_nat (length (pageContent d)))
    None
    (fun _ => Ok (js "문서가 없습니다."))
    (js "/app/temp").

(** ** Occurrences of the citation pattern *)

(** The strings a pattern matches. *)
Inductive matches : regex -> jsstring -> Prop :=
| matches_chr p c : p c = true -> matches (Chr p) [c]
| matches_seq r1 r2 a b :
    matches r1 a -> matches r2 b -> matches (Seq r1 r2) (a ++ b)
| matches_star_nil r : matches (Star r) []
| matches_star_cons r a b :
    matches r a -> matches (Star r) b -> matches (Star r) (a ++ b)
| matches_group r a : matches r a -> matches (Group r) a.

(** The matcher is sound on a pattern: what it reads before it calls its
    continuation is a string the pattern matches. *)
Definition exec_sound_at (A : Type) (r : regex) : Prop :=
  forall st (k : mstate -> option A) x,
    exec r st k = Some x ->
    exists a st', rest st = a ++ rest st' /\ matches r a /\ k st' = Some x.

(** The text starts with an occurrence of the citation pattern. *)
Definition startsCitation (s : jsstring) : Prop :=
  exists ws1 d1 more post,
    ws1 <> [] /\ spaces ws1 /\ number d1 /\ wellFormedMore more
    /\ s = citation ws1 d1 more ++ post.

(** What follows [pre] is the first occurrence: no occurrence of the
    pattern starts inside [pre]. *)
Definition firstOccurrenceAfter (pre rest : jsstring) : Prop :=
  forall a b, pre = a ++ b -> b <> [] -> ~ startsCitation (b ++ rest).

(** The same, decided by trying the pattern at every position of
    [pre]. *)
Fixpoint noMatchWithin (pre rest : jsstring) : bool :=
  match pre with
  | [] => true
  | _ :: pre' =>
    match match_here OpenaiService.sourcesPattern (pre ++ rest) with
    | Some _ => false
    | None => noMatchWithin pre' rest
    end
  end.


(** ** Further readings of the services *)

(** The question handler once the store is there: retrieval, then the
    answer. *)
Definition answerQuestion (E : Env) (s : jsstring) (w : World)
  : World * completion Server.Response :=
  match run (RagService.retrieveRelevantDocuments E s None) w with
  | (w2, Settles (Ok docs)) =>
    match run (OpenaiService.generateAnswer E s (Some docs)) w2 with
    | (w3, Settles (Ok a)) =>
      (w3, Ok (Server.ChatReply (OpenaiService.answer a)
                 (OpenaiService.sources a)))
    | (w3, Settles (Err e)) =>
      (w3, Ok (Server.ErrorReply 500 (questionError e)))
    | (w3, Crashes e) => (w3, Crashes e)
    end
  | (w2, Settles (Err e)) =>
    (w2, Ok (Server.ErrorReply 500 (questionError e)))
  | (w2, Crashes e) => (w2, Crashes e)
  end.

(** A string of ASCII code units. *)
Definition asciiOnly (s : jsstring) : Prop :=
  forallb (fun c => (c <? 128)%N) s = true.

(** A bucket like the mixed one, on a disk too full for the index to be
    written. *)
Definition fullDiskEnv : Env :=
  mkEnv (Ok (Some Scenario.mixedBucket))
    (fun k => Ok (Delivers (js "body of " ++ k)))
    (fun _ => None)
    (fun _ _ => Err (js "Invalid PDF structure"))
    (fun _ _ => Err (js "Could not find the main document part"))
    (fun docs => Ok docs)
    (fun _ => None)
    (fun _ => None)
    (fun _ d => Z.of_nat (length (pageContent d)))
    (Some (CannotWriteIndex (js "ENOSPC: no space left on device, write")))
    (fun _ => Ok (js "문서가 없습니다."))
    (js "/app/temp").

(** The directory at the vector store path is as it was, or the index
    could not be written into it and it holds no loadable store. *)
Definition diskAfterFailure (E : Env) (before after : DiskState) : Prop :=
  after = before
  \/ (exists e, save_fault E = Some (CannotWriteIndex e))
     /\ after = Present None.

(** The object is a binary document whose transfer stopped with this
    part in the transient file: the write stream failed after it, or the
    body broke off after it. *)
Definition transferStopped (E : Env) (obj : S3Item) (part : jsstring)
  : Prop :=
  (extensionOf obj = js ".pdf" \/ extensionOf obj = js ".docx")
  /\ exists body,
       s3_get E (key obj) = Ok body
       /\ ((exists e, written E (key obj) body = CutShort part e)
           \/ (written E (key obj) body = Took part
               /\ exists received e, body = Breaks received e)).

(** A bucket in which the body of a text document breaks off in
    transit. *)
Definition brokenTextEnv : Env :=
  mkEnv (Ok (Some [guideMd]))
    (fun _ => Ok (Breaks (js "# Gui") (js "aborted")))
    (fun _ => None)
    (fun _ _ => Err (js "Invalid PDF structure"))
    (fun _ _ => Err (js "Could not find the main document part"))
    (fun docs => Ok docs)
    (fun _ => None)
    (fun _ => None)
    (fun _ d => Z.of_nat (length (pageContent d)))
    None
    (fun _ => Ok (js "문서가 없습니다."))
    (js "/app/temp").

(* ================================================================== *)
(** * Running programs: equations *)
(* ================================================================== *)

Section RunLemmas.

Variable W : Type.

Lemma run_bind A B (p : prog W A) (f : A -> prog W B) (w : W) :
  run (bind p f) w =
  match run p w with
  | (w', Settles (Ok a)) => run (f a) w'
  | (w', Settles (Err e)) => (w', Err e)
  | (w', Crashes e) => (w', Crashes e)
  end.
Proof.
  revert w; induction p as [a|e|e|X g k IH|X g k IH]; intro w; simpl;
    try reflexivity.
  - destruct (g w) as [w' x]; apply IH.
  - destruct (g w) as [w' r]; apply IH.
Qed.

Lemma run_try_catch A (p : prog W A) (h : error -> prog W A) (w : W) :
  run (try_catch p h) w =
  match run p w with
  | (w', Settles (Ok a)) => (w', Ok a)
  | (w', Settles (Err e)) => run (h e) w'
  | (w', Crashes e) => (w', Crashes e)
  end.
Proof.
  revert w; induction p as [a|e|e|X g k IH|X g k IH]; intro w; simpl;
    try reflexivity.
  - destruct (g w) as [w' x]; apply IH.
  - destruct (g w) as [w' r]; apply IH.
Qed.

Lemma run_await X (f : W -> W * result X) (w : W) :
  run (await f) w = (fst (f w), Settles (snd (f w))).
Proof.
  unfold await; simpl. destruct (f w) as [w' [x|e]]; reflexivity.
Qed.

Lemma run_sync X (f : W -> W * X) (w : W) :
  run (sync f) w = (fst (f w), Ok (snd (f w))).
Proof.
  unfold sync; simpl. destruct (f w); reflexivity.
Qed.

Lemma run_get (w : W) : run get w = (w, Ok w).
Proof. reflexivity. Qed.

Lemma run_modify (f : W -> W) (w : W) : run (modify f) w = (f w, Ok tt).
Proof. reflexivity. Qed.

End RunLemmas.

Create Rewrite HintDb run.

#[local] Hint Rewrite run_bind run_try_catch run_await run_sync run_get
  run_modify : run.

(* ================================================================== *)
(** * Lemmas and theorems *)
(* ================================================================== *)

Lemma jseqb_refl (s : jsstring) : jseqb s s = true.
Proof. unfold jseqb. destruct (list_eq_dec N.eq_dec s s); congruence. Qed.

Lemma jseqb_eq (a b : jsstring) : jseqb a b = true -> a = b.
Proof. unfold jseqb. destruct (list_eq_dec N.eq_dec a b); congruence. Qed.

Lemma lookup_write_file p c fs : lookup_file p (write_file p c fs) = Some c.
Proof. unfold write_file; simpl. now rewrite jseqb_refl. Qed.

Lemma lookup_remove_file p fs : lookup_file p (remove_file p fs) = None.
Proof.
  induction fs as [|[q c] fs IH]; simpl; auto.
  destruct (jseqb q p) eqn:H; simpl; auto. now rewrite H.
Qed.

Lemma truthy_normalize p : truthy (Some (Path.normalize p)) = true.
Proof.
  unfold Path.normalize. destruct p as [|c p]; [reflexivity|].
  cbv zeta.
  destruct (Path.join_segments _) as [|x kept].
  - destruct (c =? Path.SLASH)%N; [reflexivity|].
    destruct (Path.ends_with_slash _); reflexivity.
  - destruct (c =? Path.SLASH)%N; [reflexivity|].
    destruct (Path.ends_with_slash _); reflexivity.
Qed.

Lemma truthy_join d n : truthy (Some (Path.join d n)) = true.
Proof.
  unfold Path.join. destruct d, n; try apply truthy_normalize. reflexivity.
Qed.

Lemma set_tempFiles_same w : set_tempFiles (tempFiles w) w = w.
Proof. destruct w; reflexivity. Qed.

Section IngestionLemmas.
Variable E : Env.

Lemma run_send_GetObject prefix k w :
  run (try_catch (S3Service.send_GetObject E k)
         (fun error => Throw (prefix ++ error))) w
  = (w, match s3_get E k with
        | Ok body => Ok body
        | Err e => Err (prefix ++ e)
        end).
Proof.
  unfold S3Service.send_GetObject. rewrite run_try_catch, run_await.
  cbn [fst snd]. destruct (s3_get E k); reflexivity.
Qed.

Lemma run_getObjectContent k w :
  run (S3Service.getObjectContent E k) w =
  (w, match s3_get E k with
      | Err e => Err (contentError e)
      | Ok (Delivers content) => Ok content
      | Ok (Breaks _ e) => Err e
      end).
Proof.
  unfold S3Service.getObjectContent. rewrite run_bind, run_send_GetObject.
  destruct (s3_get E k) as [[content|received e]|e]; reflexivity.
Qed.

Lemma run_downloadObjectToTemp k w :
  run (S3Service.downloadObjectToTemp E k) w =
  match s3_get E k with
  | Err e => (w, Err (downloadError e))
  | Ok body =>
    match written E k body with
    | NotOpened e => (w, Err e)
    | CutShort content e =>
      (set_tempFiles (write_file (tempPathOf E k) content (tempFiles w)) w,
       Err e)
    | Took content =>
      (set_tempFiles (write_file (tempPathOf E k) content (tempFiles w)) w,
       match body with
       | Delivers _ => Ok (tempPathOf E k)
       | Breaks _ e => Crashes e
       end)
    end
  end.
Proof.
  unfold S3Service.downloadObjectToTemp. rewrite run_bind, run_send_GetObject.
  destruct (s3_get E k) as [body|e]; [|reflexivity].
  unfold S3Service.pipe_to_file. rewrite run_bind, run_await.
  fold (tempPathOf E k). fold (written E k body).
  destruct (written E k body) as [e|content e|content]; cbn [fst snd];
    try reflexivity.
  destruct body; reflexivity.
Qed.

(** A binary document: the transient file is written, then parsed; it is
    removed when the parse succeeds and stays in every other case. *)
Lemma run_binary load docs k w :
  run (st <- (tempFilePath <- S3Service.downloadObjectToTemp E k ;;
              ds <- RagService.loader_load load tempFilePath ;;
              Ret (docs ++ ds, Some tempFilePath)) ;;
       let '(documents', tempFilePath) := st in
       (match tempFilePath with
        | Some p =>
          if truthy tempFilePath then
            present <- existsSync_temp p ;;
            if present then unlinkSync p else Ret tt
          else Ret tt
        | None => Ret tt
        end) ;;;
       Ret documents') w =
  (set_tempFiles (binaryAfter E load k (tempFiles w)) w,
   gathered docs (binaryOutcome E load k)).
Proof.
  rewrite run_bind, run_bind, run_downloadObjectToTemp.
  unfold binaryAfter, binaryOutcome.
  destruct (s3_get E k) as [body|e];
    [|now rewrite set_tempFiles_same].
  destruct (written E k body) as [e|content e|content];
    [now rewrite set_tempFiles_same|reflexivity|].
  destruct body as [full|received e]; [|reflexivity].
  rewrite run_bind. unfold RagService.loader_load. rewrite run_await.
  cbn [fst snd tempFiles set_tempFiles]. rewrite lookup_write_file.
  destruct (load (tempPathOf E k) content) as [ds|e]; [|reflexivity].
  cbn [run]. rewrite run_bind. unfold tempPathOf at 1.
  rewrite truthy_join. rewrite run_bind. unfold existsSync_temp.
  rewrite run_sync. cbn [fst snd tempFiles set_tempFiles].
  fold (tempPathOf E k). rewrite lookup_write_file.
  unfold unlinkSync. rewrite run_modify. reflexivity.
Qed.

Lemma run_processObject obj docs w :
  run (RagService.processObject E obj docs) w =
  (set_tempFiles (tempAfter E obj (tempFiles w)) w,
   gathered docs (outcome E obj)).
Proof.
  unfold RagService.processObject, outcome, tempAfter, extensionOf.
  destruct (jseqb (toLowerCase (Path.extname (key obj))) (js ".pdf")) eqn:Hp.
  - apply run_binary.
  - destruct (jseqb (toLowerCase (Path.extname (key obj))) (js ".docx"))
      eqn:Hd.
    + apply run_binary.
    + rewrite set_tempFiles_same.
      rewrite run_bind, run_bind, run_getObjectContent.
      unfold textOutcome.
      destruct (s3_get E (key obj)) as [[content|received e]|e];
        reflexivity.
Qed.

Lemma run_forEachObject objects : forall docs w,
  run (RagService.forEachObject E objects docs) w =
  (set_tempFiles (passAfter E objects (tempFiles w)) w,
   match firstCrash E objects with
   | Some e => Crashes e
   | None => Ok (docs ++ flat_map (contribution E) objects)
   end).
Proof.
  induction objects as [|obj objects IH]; intros docs w.
  - simpl. now rewrite set_tempFiles_same, app_nil_r.
  - cbn [RagService.forEachObject passAfter firstCrash flat_map].
    rewrite run_bind, run_try_catch, run_processObject.
    unfold contribution at 1.
    destruct (outcome E obj) as [[ds|e]|e]; cbn [gathered run].
    + rewrite IH. cbn [tempFiles set_tempFiles].
      destruct (firstCrash E objects); [reflexivity|].
      now rewrite app_assoc.
    + rewrite IH. cbn [tempFiles set_tempFiles].
      destruct (firstCrash E objects); reflexivity.
    + reflexivity.
Qed.

End IngestionLemmas.
Section LifecycleLemmas.
Variable E : Env.

Lemma map_S3Item_id (items : list S3Item) :
  map (fun item => mkS3Item (key item) (size item) (itemLastModified item))
    items = items.
Proof.
  induction items as [|[k s l] items IH]; simpl; congruence.
Qed.

Lemma run_listObjectsByExtension w :
  run (S3Service.listObjectsByExtension E RagService.SUPPORTED_EXTENSIONS) w
  = (w, supported E).
Proof.
  unfold S3Service.listObjectsByExtension, S3Service.listAllObjects,
    S3Service.send_ListObjectsV2, supported.
  rewrite run_try_catch, run_bind, run_try_catch, run_bind, run_await.
  cbn [fst snd].
  destruct (s3_list E) as [[items|]|e]; simpl; try reflexivity.
  now rewrite map_S3Item_id.
Qed.

(** The transient files after a whole pass. *)
Lemma run_loadDocumentsFromS3_files w :
  run (RagService.loadDocumentsFromS3 E) w
  = (set_tempFiles (loadAfter E (tempFiles w)) w, ingested E).
Proof.
  unfold RagService.loadDocumentsFromS3, ingested, loadAfter.
  rewrite run_try_catch, run_bind, run_listObjectsByExtension.
  destruct (supported E) as [[|obj objects]|e].
  - cbn [passAfter pass firstCrash flat_map].
    now rewrite set_tempFiles_same.
  - rewrite run_forEachObject. unfold pass.
    destruct (firstCrash E (obj :: objects)); reflexivity.
  - now rewrite set_tempFiles_same.
Qed.

Lemma run_loadDocumentsFromS3 w :
  exists t,
    run (RagService.loadDocumentsFromS3 E) w = (set_tempFiles t w, ingested E).
Proof. eexists. apply run_loadDocumentsFromS3_files. Qed.

Lemma run_build_path w t :
  run (RagService.loadDocumentsFromS3 E) w = (set_tempFiles t w, ingested E) ->
  match
    run (documents <- RagService.loadDocumentsFromS3 E ;;
         match documents with
         | [] =>
           v <- fromDocuments E MemoryVectorStore
                  [RagService.sentinelDocument] ;;
           modify (set_vectorStore (Some v)) ;;; Ret false
         | _ :: _ =>
           chunks <- RagService.splitDocumentsIntoChunks E documents ;;
           v <- fromDocuments E FaissStore chunks ;;
           modify (set_vectorStore (Some v)) ;;; save E v ;;; Ret true
         end) w
  return World * completion bool
  with
  | (w', Settles (Ok a)) => (w', Ok a)
  | (w', Settles (Err e)) => (w', Err (initError e))
  | (w', Crashes e) => (w', Crashes e)
  end = buildResult E t w.
Proof.
  intro Ht. unfold buildResult. rewrite run_bind, Ht.
  destruct (ingested E) as [[[|d ds]|e]|e]; [| |reflexivity|reflexivity].
  - unfold fromDocuments. rewrite run_bind, run_await. cbn [fst snd].
    destruct (embed_documents_error E [RagService.sentinelDocument]);
      reflexivity.
  - unfold RagService.splitDocumentsIntoChunks.
    rewrite run_bind, run_await. cbn [fst snd].
    destruct (split_documents E (d :: ds)) as [chunks|e]; [|reflexivity].
    unfold fromDocuments. rewrite run_bind, run_await. cbn [fst snd].
    cbn zeta.
    destruct (embed_documents_error E chunks); [reflexivity|].
    cbn [error_result]. rewrite run_bind, run_modify, run_bind.
    unfold save. rewrite run_await.
    destruct (save_fault E) as [[e|e]|]; reflexivity.
Qed.

Lemma run_initializeVectorStore w :
  exists t, run (RagService.initializeVectorStore E) w = initResult E t w.
Proof.
  destruct (run_loadDocumentsFromS3 w) as [t Ht]. exists t.
  unfold RagService.initializeVectorStore, initResult.
  rewrite run_try_catch, run_bind.
  unfold existsSync_vectorDB. rewrite run_sync. cbn [fst snd].
  destruct (vectorDB w) as [|[d|]] eqn:Hdb.
  - rewrite run_bind. cbn [run]. cbv iota.
    exact (run_build_path w t Ht).
  - rewrite run_bind, run_try_catch, run_bind.
    unfold FaissStore_load. rewrite run_await, Hdb. reflexivity.
  - rewrite run_bind, run_try_catch, run_bind.
    unfold FaissStore_load. rewrite run_await, Hdb. cbn [run]. cbv iota.
    exact (run_build_path w t Ht).
Qed.

End LifecycleLemmas.

Lemma has_extension_pdf obj :
  toLowerCase (Path.extname (key obj)) = js ".pdf" ->
  S3Service.has_extension RagService.SUPPORTED_EXTENSIONS obj = true.
Proof.
  unfold S3Service.has_extension. intros ->. reflexivity.
Qed.
(** ** Transient files and crashes *)

(** A key with an extension has a base name that names a file. *)
Lemma extension_names_file k :
  Path.extname k <> [] ->
  S3Service.names_directory (Path.basename k) = false.
Proof.
  unfold Path.extname, S3Service.names_directory.
  destruct (Path.basename k) as [|c r]; [congruence|].
  destruct (Path.after_last_dot r) as [e0|] eqn:Hdot; [|congruence].
  destruct (jseqb (c :: r) [Path.DOT; Path.DOT]) eqn:Hdd; [congruence|].
  intros _. rewrite orb_false_r.
  destruct (jseqb (c :: r) [Path.DOT]) eqn:Hd.
  - apply jseqb_eq in Hd. injection Hd as _ ->. discriminate.
  - reflexivity.
Qed.

Lemma extensionOf_names_file obj ext :
  extensionOf obj = ext -> ext <> [] ->
  S3Service.names_directory (Path.basename (key obj)) = false.
Proof.
  intros Hext Hne. apply extension_names_file. intro H.
  unfold extensionOf in Hext. rewrite H in Hext. cbn in Hext. congruence.
Qed.

(** Without a fault the write stream takes all that arrives. *)
Lemma written_no_fault E k body :
  S3Service.names_directory (Path.basename k) = false ->
  write_fault E (tempPathOf E k) = None ->
  written E k body = Took (arriving body).
Proof.
  intros Hname Hfault. unfold written, S3Service.createWriteStream_fault.
  now rewrite Hname, Hfault.
Qed.

Lemma firstCrash_app E l1 l2 :
  firstCrash E (l1 ++ l2) =
  match firstCrash E l1 with
  | Some e => Some e
  | None => firstCrash E l2
  end.
Proof.
  induction l1 as [|obj l1 IH]; [reflexivity|].
  cbn [app firstCrash]. destruct (outcome E obj); [exact IH|reflexivity].
Qed.

Lemma passAfter_app E l1 l2 : forall fs,
  firstCrash E l1 = None ->
  passAfter E (l1 ++ l2) fs = passAfter E l2 (passAfter E l1 fs).
Proof.
  induction l1 as [|obj l1 IH]; intros fs H; [reflexivity|].
  cbn [app passAfter firstCrash] in *.
  destruct (outcome E obj); [now apply IH|discriminate].
Qed.

Lemma flat_map_contribution_settled E objects :
  firstCrash E objects = None ->
  pass E objects = Ok (flat_map (contribution E) objects).
Proof. unfold pass. now intros ->. Qed.

(** C8.  The per-document [catch] does not see a body that breaks off in
    transit.  When the pass comes to a PDF or DOCX object whose request
    succeeds and whose body then emits ['error'] (the write stream being
    sound), the pass does not skip the document and go on: it ends there
    with that error uncaught, returns no documents at all, and leaves
    the part of the body that had arrived in the transient file.  The
    objects after it are never processed. *)
Theorem loadDocumentsFromS3_aborts_on_broken_body
    E w items before obj after received e :
  s3_list E = Ok (Some items) ->
  filter (S3Service.has_extension RagService.SUPPORTED_EXTENSIONS) items
  = before ++ obj :: after ->
  firstCrash E before = None ->
  extensionOf obj = js ".pdf" \/ extensionOf obj = js ".docx" ->
  s3_get E (key obj) = Ok (Breaks received e) ->
  write_fault E (tempPathOf E (key obj)) = None ->
  run (RagService.loadDocumentsFromS3 E) w
  = (set_tempFiles
       (write_file (tempPathOf E (key obj)) received
          (passAfter E before (tempFiles w))) w,
     Crashes e).
Proof.
  intros Hlist Hobjs Hbefore Hext Hget Hfault.
  assert (Hname :
    S3Service.names_directory (Path.basename (key obj)) = false).
  { destruct Hext as [H|H];
      apply (extensionOf_names_file obj _ H); discriminate. }
  assert (Hout : outcome E obj = Crashes e).
  { unfold outcome, binaryOutcome. fold (extensionOf obj).
    rewrite Hget, (written_no_fault E _ _ Hname Hfault).
    destruct Hext as [-> | ->]; reflexivity. }
  assert (Hafter : forall fs,
    tempAfter E obj fs = write_file (tempPathOf E (key obj)) received fs).
  { intro fs. unfold tempAfter, binaryAfter.
    rewrite Hget, (written_no_fault E _ _ Hname Hfault).
    destruct Hext as [-> | ->]; reflexivity. }
  rewrite run_loadDocumentsFromS3_files.
  unfold loadAfter, ingested, supported. rewrite Hlist, Hobjs.
  unfold pass. rewrite firstCrash_app, Hbefore.
  rewrite (passAfter_app E before (obj :: after) _ Hbefore).
  cbn [firstCrash passAfter]. rewrite Hout, Hafter. reflexivity.
Qed.

Lemma loadDocumentsFromS3_aborts_on_broken_body_witness :
  run (RagService.loadDocumentsFromS3 cutEnv) Scenario.coldStart
  = (set_tempFiles
       (write_file (tempPathOf cutEnv (key cutPdf)) (js "%PDF-1.7")
          (passAfter cutEnv [notesTxt] (tempFiles Scenario.coldStart)))
       Scenario.coldStart,
     Crashes (js "aborted")).
Proof.
  apply (loadDocumentsFromS3_aborts_on_broken_body cutEnv Scenario.coldStart
           cutBucket [notesTxt] cutPdf [guideMd] (js "%PDF-1.7")
           (js "aborted")).
  - reflexivity.
  - vm_compute. reflexivity.
  - vm_compute. reflexivity.
  - left. vm_compute. reflexivity.
  - vm_compute. reflexivity.
  - reflexivity.
Defined.

(** C6.  The transient file of a PDF is not deleted when parsing it
    fails: after a pass that comes to its last supported object, a PDF
    that downloads in full but does not parse, the file is still there
    with the downloaded body. *)
Theorem loadDocumentsFromS3_leaves_temp_file_on_parse_failure
    E w before obj body e :
  s3_list E = Ok (Some (before ++ [obj])) ->
  firstCrash E
    (filter (S3Service.has_extension RagService.SUPPORTED_EXTENSIONS) before)
  = None ->
  toLowerCase (Path.extname (key obj)) = js ".pdf" ->
  s3_get E (key obj) = Ok (Delivers body) ->
  write_fault E (tempPathOf E (key obj)) = None ->
  pdf_load E (tempPathOf E (key obj)) body = Err e ->
  lookup_file (tempPathOf E (key obj))
    (tempFiles (fst (run (RagService.loadDocumentsFromS3 E) w)))
  = Some body.
Proof.
  intros Hlist Hbefore Hext Hget Hfault Hload.
  assert (Hname :
    S3Service.names_directory (Path.basename (key obj)) = false).
  { apply (extensionOf_names_file obj _ Hext). discriminate. }
  rewrite run_loadDocumentsFromS3_files. cbn [fst tempFiles set_tempFiles].
  unfold loadAfter, supported. rewrite Hlist, filter_app. cbn [filter].
  rewrite (has_extension_pdf obj Hext).
  rewrite (passAfter_app E _ [obj] _ Hbefore).
  cbn [passAfter].
  assert (Hafter : forall fs,
    tempAfter E obj fs = write_file (tempPathOf E (key obj)) body fs).
  { intro fs. unfold tempAfter, binaryAfter, extensionOf.
    rewrite Hext, Hget, (written_no_fault E _ _ Hname Hfault).
    cbn [arriving]. now rewrite Hload. }
  rewrite Hafter. destruct (outcome E obj); apply lookup_write_file.
Qed.

Lemma loadDocumentsFromS3_leaves_temp_file_witness :
  lookup_file (tempPathOf Scenario.brokenPdfEnv (key Scenario.brokenPdf))
    (tempFiles
       (fst (run (RagService.loadDocumentsFromS3 Scenario.brokenPdfEnv)
               Scenario.coldStart)))
  = Some (js "body of reports/broken.pdf").
Proof.
  apply (loadDocumentsFromS3_leaves_temp_file_on_parse_failure
           Scenario.brokenPdfEnv Scenario.coldStart [] Scenario.brokenPdf
           (js "body of reports/broken.pdf") (js "Invalid PDF structure"));
    reflexivity.
Defined.
Lemma init_false_inv E w w' :
  run (RagService.initializeVectorStore E) w = (w', Ok false) ->
  ingested E = Ok []
  /\ embed_documents_error E [RagService.sentinelDocument] = None
  /\ loadable (vectorDB w) = false
  /\ exists t,
       w' = set_vectorStore
              (Some (MemoryVectorStore [RagService.sentinelDocument]))
              (log_embedPass [RagService.sentinelDocument]
                 (set_tempFiles t w)).
Proof.
  destruct (run_initializeVectorStore E w) as [t ->].
  unfold initResult, buildResult. intro H.
  assert (Hb :
    loadable (vectorDB w) = false ->
    buildResult E t w = (w', Ok false) ->
    ingested E = Ok []
    /\ embed_documents_error E [RagService.sentinelDocument] = None
    /\ loadable (vectorDB w) = false
    /\ exists t,
         w' = set_vectorStore
                (Some (MemoryVectorStore [RagService.sentinelDocument]))
                (log_embedPass [RagService.sentinelDocument]
                   (set_tempFiles t w))).
  { intros Hl. unfold buildResult.
    destruct (ingested E) as [[[|d ds]|e]|e]; [| |discriminate|discriminate].
    - destruct (embed_documents_error E [RagService.sentinelDocument]);
        [discriminate|].
      intro H'. injection H' as <-. repeat split; auto. now exists t.
    - destruct (split_documents E (d :: ds)); [|discriminate].
      cbv zeta. destruct (embed_documents_error E a); [discriminate|].
      destruct (save_fault E); discriminate. }
  destruct (vectorDB w) as [|[d|]]; [now apply Hb|discriminate|now apply Hb].
Qed.

(** C10.  When initialization reports an empty corpus, the placeholder
    store is in memory only: the directory at the vector store path is as
    it was and holds no loadable store, and a later initialization of a
    fresh process in the same surroundings again finds nothing to load
    and reports an empty corpus. *)
Theorem empty_corpus_initialization_is_not_persisted E w w' :
  run (RagService.initializeVectorStore E) w = (w', Ok false) ->
  vectorStore w' = Some (MemoryVectorStore [RagService.sentinelDocument])
  /\ vectorDB w' = vectorDB w
  /\ loadable (vectorDB w') = false
  /\ (forall w'' r,
        run (RagService.initializeVectorStore E)
          (set_isInitialized false (set_vectorStore None w')) = (w'', r) ->
        r = Ok false /\ vectorDB w'' = vectorDB w).
Proof.
  intro H. destruct (init_false_inv E w w' H) as (Hing & Hemb & Hl & t & ->).
  split; [reflexivity|]. split; [reflexivity|]. split; [exact Hl|].
  intros w'' r H'.
  destruct (run_initializeVectorStore E
    (set_isInitialized false
       (set_vectorStore None
          (set_vectorStore
             (Some (MemoryVectorStore [RagService.sentinelDocument]))
             (log_embedPass [RagService.sentinelDocument]
                (set_tempFiles t w)))))) as [t' Ht'].
  rewrite Ht' in H'. unfold initResult, buildResult in H'.
  cbn [vectorDB set_isInitialized set_vectorStore log_embedPass
       set_tempFiles] in H'.
  rewrite Hing, Hemb in H'.
  destruct (vectorDB w) as [|[d|]] eqn:Hdb; try discriminate;
    injection H' as <- <-; (split; [reflexivity|exact Hdb]).
Qed.

Lemma empty_corpus_initialization_witness :
  vectorStore Scenario.placeholderWorld
  = Some (MemoryVectorStore [RagService.sentinelDocument])
  /\ vectorDB Scenario.placeholderWorld = vectorDB Scenario.coldStart
  /\ loadable (vectorDB Scenario.placeholderWorld) = false
  /\ (forall w'' r,
        run (RagService.initializeVectorStore Scenario.emptyEnv)
          (set_isInitialized false
             (set_vectorStore None Scenario.placeholderWorld)) = (w'', r) ->
        r = Ok false /\ vectorDB w'' = vectorDB Scenario.coldStart).
Proof.
  apply (empty_corpus_initialization_is_not_persisted Scenario.emptyEnv
           Scenario.coldStart Scenario.placeholderWorld).
  vm_compute. reflexivity.
Defined.


Lemma run_initializeVectorStore_files E w :
  run (RagService.initializeVectorStore E) w
  = initResult E (loadAfter E (tempFiles w)) w.
Proof.
  pose proof (run_loadDocumentsFromS3_files E w) as Ht.
  unfold RagService.initializeVectorStore, initResult.
  rewrite run_try_catch, run_bind.
  unfold existsSync_vectorDB. rewrite run_sync. cbn [fst snd].
  destruct (vectorDB w) as [|[d|]] eqn:Hdb.
  - rewrite run_bind. cbn [run]. cbv iota.
    exact (run_build_path E w _ Ht).
  - rewrite run_bind, run_try_catch, run_bind.
    unfold FaissStore_load. rewrite run_await, Hdb. reflexivity.
  - rewrite run_bind, run_try_catch, run_bind.
    unfold FaissStore_load. rewrite run_await, Hdb. cbn [run]. cbv iota.
    exact (run_build_path E w _ Ht).
Qed.

Lemma run_reindexDocuments E w :
  run (RagService.reindexDocuments E) w =
  match run (RagService.initializeVectorStore E) (cleared w) with
  | (w', Settles (Ok b)) =>
    (w', Ok (RagService.mkReindexResult b (reindexMessage b)))
  | (w', Settles (Err e)) => (w', Err (reindexError e))
  | (w', Crashes e) => (w', Crashes e)
  end.
Proof.
  unfold RagService.reindexDocuments.
  rewrite run_try_catch, run_bind. unfold existsSync_vectorDB.
  rewrite run_sync. cbn [fst snd]. rewrite run_bind.
  assert (Hrm : forall (b : bool),
    b = match vectorDB w with Missing => false | Present _ => true end ->
    run (if b then rmSync_vectorDB else Ret tt) w
    = (set_vectorDB Missing w, Ok tt)).
  { intros b ->. destruct w as [v i [|d] t p l]; reflexivity. }
  rewrite (Hrm _ eq_refl). rewrite run_bind, run_modify, run_bind.
  unfold cleared.
  destruct (run (RagService.initializeVectorStore E)
              (set_vectorStore None (set_vectorDB Missing w)))
    as [w' [[b|e]|e]]; [destruct b| |]; reflexivity.
Qed.

(** Initialization fails on a listing that has no [Contents], wherever
    there is no saved store to load, and changes nothing. *)
Lemma run_initializeVectorStore_no_contents E w :
  s3_list E = Ok None ->
  loadable (vectorDB w) = false ->
  run (RagService.initializeVectorStore E) w
  = (w, Err (initError (loadError (listingError missingContents)))).
Proof.
  intros Hlist Hl. rewrite run_initializeVectorStore_files.
  unfold initResult, buildResult, loadAfter, ingested, supported.
  rewrite Hlist. rewrite set_tempFiles_same.
  destruct (vectorDB w) as [|[d|]]; [reflexivity|discriminate|reflexivity].
Qed.

(** C7.  Reindexing does not come to its answer when the bucket lists
    without [Contents], as a bucket emptied by deletion does: mapping
    over the missing [Contents] throws, initialization fails, and the
    handler answers 500 instead of success = false with a message.  The
    saved store is deleted and the store in memory dropped, yet the flag
    is left as it was, so that the status query that follows still
    reports a service that was initialized before as initialized. *)
Theorem reindex_fails_on_listing_without_contents E w :
  s3_list E = Ok None ->
  run (Server.reindexDocuments E) w
  = (cleared w,
     Ok (Server.ErrorReply 500
           (reindexHandlerError
              (reindexError
                 (initError (loadError (listingError missingContents)))))))
  /\ run Server.checkStatus (cleared w)
     = (cleared w, Ok (Server.StatusReply (isInitialized w)))
  /\ vectorStore (cleared w) = None
  /\ vectorDB (cleared w) = Missing.
Proof.
  intro Hlist. split; [|repeat split].
  unfold Server.reindexDocuments.
  rewrite run_try_catch, run_bind, run_reindexDocuments.
  rewrite (run_initializeVectorStore_no_contents E (cleared w) Hlist eq_refl).
  reflexivity.
Qed.

Lemma reindex_fails_on_listing_without_contents_witness :
  run (Server.reindexDocuments emptyListingEnv) servingWorld
  = (cleared servingWorld,
     Ok (Server.ErrorReply 500
           (reindexHandlerError
              (reindexError
                 (initError (loadError (listingError missingContents)))))))
  /\ run Server.checkStatus (cleared servingWorld)
     = (cleared servingWorld, Ok (Server.StatusReply true))
  /\ vectorStore (cleared servingWorld) = None
  /\ vectorDB (cleared servingWorld) = Missing.
Proof.
  apply (reindex_fails_on_listing_without_contents emptyListingEnv
           servingWorld).
  reflexivity.
Defined.

Lemma run_retrieve_initialized E query topK v w :
  vectorStore w = Some v ->
  run (RagService.retrieveRelevantDocuments E query topK) w =
  match embed_query_error E query with
  | Some e =>
    (w, Err (js "관련 문서를 검색하는 중 오류가 발생했습니다: " ++ e))
  | None =>
    (w, Ok (firstn (effectiveTopK topK)
              (sort_by (score E query) (storeDocs v))))
  end.
Proof.
  intro Hv. unfold RagService.retrieveRelevantDocuments.
  rewrite run_try_catch, run_bind, run_get, Hv, run_bind. cbn [run].
  rewrite run_bind, run_get, Hv. unfold similaritySearch.
  rewrite run_await. cbn [fst snd]. unfold effectiveTopK.
  destruct (embed_query_error E query); reflexivity.
Qed.

(** C2, as amended.  Against the placeholder store built when zero
    documents were found, retrieval with a top-K of at least one (the
    default is five) returns exactly the sentinel entry, and leaves the
    world as it is. *)
Theorem retrieve_on_placeholder_returns_sentinel E w0 w query topK :
  run (RagService.initializeVectorStore E) w0 = (w, Ok false) ->
  embed_query_error E query = None ->
  (1 <= effectiveTopK topK)%nat ->
  run (RagService.retrieveRelevantDocuments E query topK) w
  = (w, Ok [RagService.sentinelDocument]).
Proof.
  intros Hinit Hq Hk.
  destruct (init_false_inv E w0 w Hinit) as (_ & _ & _ & t & ->).
  erewrite run_retrieve_initialized by reflexivity. rewrite Hq.
  cbn [storeDocs sort_by fold_right insert_by].
  destruct (effectiveTopK topK) as [|n]; [lia|].
  cbn [firstn]. now rewrite firstn_nil.
Qed.

Lemma retrieve_on_placeholder_witness :
  run (RagService.retrieveRelevantDocuments Scenario.emptyEnv
         Scenario.question None) Scenario.placeholderWorld
  = (Scenario.placeholderWorld, Ok [RagService.sentinelDocument]).
Proof.
  apply (retrieve_on_placeholder_returns_sentinel Scenario.emptyEnv
           Scenario.coldStart Scenario.placeholderWorld Scenario.question
           None).
  - vm_compute. reflexivity.
  - reflexivity.
  - simpl. lia.
Defined.

(** C2 as stated fails: on the placeholder store built from a bucket
    with nothing to index, retrieval returns the sentinel entry, not the
    empty list. *)
Lemma retrieve_on_placeholder_not_empty :
  run (RagService.initializeVectorStore Scenario.emptyEnv)
    Scenario.coldStart = (Scenario.placeholderWorld, Ok false)
  /\ snd (run (RagService.retrieveRelevantDocuments Scenario.emptyEnv
                 Scenario.question None) Scenario.placeholderWorld)
     = Ok [RagService.sentinelDocument]
  /\ snd (run (RagService.retrieveRelevantDocuments Scenario.emptyEnv
                 Scenario.question None) Scenario.placeholderWorld)
     <> Ok [].
Proof.
  split; [vm_compute; reflexivity|].
  split; [vm_compute; reflexivity|].
  vm_compute. discriminate.
Qed.

(** C5.  With no retrieved chunks (an empty list or none at all) the
    synthesizer returns the fixed apology with no sources and leaves the
    world untouched: the generation oracle is not called. *)
Theorem generateAnswer_without_documents E query w :
  run (OpenaiService.generateAnswer E query None) w
  = (w, Ok (OpenaiService.mkAnswer OpenaiService.apology []))
  /\ run (OpenaiService.generateAnswer E query (Some [])) w
     = (w, Ok (OpenaiService.mkAnswer OpenaiService.apology []))
  /\ (forall docs,
        docs = None \/ docs = Some [] ->
        llmCalls (fst (run (OpenaiService.generateAnswer E query docs) w))
        = llmCalls w).
Proof.
  split; [reflexivity|]. split; [reflexivity|].
  intros docs [-> | ->]; reflexivity.
Qed.


Section MatcherLemmas.

Variable A : Type.

Lemma exec_chr_stop (p : N -> bool) s cap (k : mstate -> option A) :
  stops p s -> exec (Chr p) (MState s cap) k = None.
Proof.
  destruct s as [|c s]; simpl; [reflexivity|]. now intros ->.
Qed.

(** A greedy class repetition reads a maximal run and goes on. *)
Lemma star_chr_some (p : N -> bool) (k : mstate -> option A) cap r tail :
  stops p tail ->
  k (MState tail cap) = Some r ->
  forall run fuel,
    forallb p run = true ->
    (length run < fuel)%nat ->
    star_loop (exec (Chr p)) k fuel (MState (run ++ tail) cap) = Some r.
Proof.
  intros Hstop Hk run.
  induction run as [|c run IH]; intros fuel Hrun Hfuel.
  - destruct fuel as [|f]; [lia|]. cbn [star_loop app].
    now rewrite exec_chr_stop, Hk.
  - destruct fuel as [|f]; [simpl in Hfuel; lia|].
    cbn [forallb] in Hrun. apply andb_prop in Hrun as [Hc Hrun].
    cbn [star_loop app exec rest cap1]. rewrite Hc.
    assert (Hlt : (length (run ++ tail) <? length (c :: run ++ tail))%nat
                  = true) by (apply Nat.ltb_lt; simpl; lia).
    rewrite Hlt. rewrite IH; [reflexivity|exact Hrun|simpl in Hfuel; lia].
Qed.

Lemma exec_star_chr (p : N -> bool) (k : mstate -> option A) cap r run tail :
  forallb p run = true ->
  stops p tail ->
  k (MState tail cap) = Some r ->
  exec (Star (Chr p)) (MState (run ++ tail) cap) k = Some r.
Proof.
  intros Hrun Hstop Hk. cbn [exec rest].
  apply star_chr_some; auto. rewrite length_app. lia.
Qed.

Lemma exec_plus_chr (p : N -> bool) (k : mstate -> option A) cap r run tail :
  run <> [] ->
  forallb p run = true ->
  stops p tail ->
  k (MState tail cap) = Some r ->
  exec (Plus (Chr p)) (MState (run ++ tail) cap) k = Some r.
Proof.
  intros Hne Hrun Hstop Hk. destruct run as [|c run]; [congruence|].
  cbn [forallb] in Hrun. apply andb_prop in Hrun as [Hc Hrun].
  unfold Plus. cbn [exec rest cap1 app]. rewrite Hc.
  change (exec (Star (Chr p)) (MState (run ++ tail) cap) k = Some r).
  now apply exec_star_chr.
Qed.

End MatcherLemmas.

Lemma digit_not_space c : is_digit c = true -> is_space c = false.
Proof.
  unfold is_digit, is_space. intro H.
  apply andb_prop in H as [H1 H2].
  apply N.leb_le in H1. apply N.leb_le in H2.
  repeat match goal with
  | |- context [(?a <=? ?b)%N] =>
    destruct (N.leb_spec a b); try lia
  | |- context [(?a =? ?b)%N] =>
    destruct (N.eqb_spec a b); try lia
  end; reflexivity.
Qed.

Lemma digit_not_comma c : is_digit c = true -> is_char COMMA c = false.
Proof.
  unfold is_digit, is_char, COMMA. intro H.
  apply andb_prop in H as [H1 H2]. apply N.leb_le in H1.
  apply N.eqb_neq. lia.
Qed.

Lemma number_stops_space ds tail : number ds -> stops is_space (ds ++ tail).
Proof.
  intros [Hne Hds]. destruct ds as [|d ds]; [congruence|].
  cbn [forallb] in Hds. apply andb_prop in Hds as [Hd _].
  simpl. now apply digit_not_space.
Qed.

Lemma renderMore_stops_digit more tail :
  wellFormedMore more ->
  stops is_digit tail ->
  stops is_digit (renderMore more ++ tail).
Proof.
  intros Hwf Htail. destruct more as [|[ws ds] more]; [exact Htail|].
  reflexivity.
Qed.

Lemma length_renderMore more : (length more <= length (renderMore more))%nat.
Proof.
  induction more as [|[ws ds] more IH]; [reflexivity|].
  cbn [renderMore flat_map fst snd length]. fold (renderMore more).
  rewrite !length_app. simpl. lia.
Qed.

Section GroupLemmas.

Variable A : Type.

Lemma exec_moreGroup_stop (k : mstate -> option A) cap tail :
  stops (is_char COMMA) tail ->
  exec moreGroup (MState tail cap) k = None.
Proof.
  intro H. unfold moreGroup. cbn [exec rest].
  destruct tail as [|c tail]; [reflexivity|]. simpl in H. now rewrite H.
Qed.

Lemma star_moreGroup (k : mstate -> option A) cap r tail :
  stops (is_char COMMA) tail ->
  stops is_digit tail ->
  k (MState tail cap) = Some r ->
  forall more fuel,
    wellFormedMore more ->
    (length more < fuel)%nat ->
    star_loop (exec moreGroup) k fuel (MState (renderMore more ++ tail) cap)
    = Some r.
Proof.
  intros Hcomma Hdigit Hk more.
  induction more as [|[ws ds] more IH]; intros fuel Hwf Hfuel.
  - destruct fuel as [|f]; [lia|]. cbn [star_loop renderMore flat_map app].
    now rewrite exec_moreGroup_stop, Hk.
  - destruct fuel as [|f]; [simpl in Hfuel; lia|].
    inversion Hwf as [|? ? [Hws Hds] Hwf']; subst.
    cbn [fst snd] in Hws, Hds.
    cbn [star_loop]. unfold moreGroup at 1.
    cbn [renderMore flat_map fst snd app exec rest cap1].
    change (is_char COMMA COMMA) with true. cbv iota.
    fold (renderMore more). rewrite <- !app_assoc.
    assert (Hgo :
      exec (Star (Chr is_space))
        (MState (ws ++ ds ++ renderMore more ++ tail) cap)
        (fun st' =>
           exec (Plus (Chr is_digit)) st'
             (fun st'0 =>
                if (length (rest st'0)
                    <? length (COMMA :: ws ++ ds ++ renderMore more ++ tail))%nat
                then star_loop (exec moreGroup) k f st'0
                else None))
      = Some r).
    { apply exec_star_chr; [exact Hws|now apply number_stops_space|].
      apply exec_plus_chr;
        [exact (proj1 Hds)|exact (proj2 Hds)
        |now apply renderMore_stops_digit|].
      cbn [rest].
      assert (Hlt :
        (length (renderMore more ++ tail)
         <? length (COMMA :: ws ++ ds ++ renderMore more ++ tail))%nat = true).
      { apply Nat.ltb_lt. simpl. rewrite !length_app. lia. }
      rewrite Hlt. apply IH; [exact Hwf'|simpl in Hfuel; lia]. }
    match goal with
    | |- orelse ?x ?y = Some r =>
      replace x with (Some r) by (symmetry; exact Hgo); reflexivity
    end.
Qed.

End GroupLemmas.

(** ** The citation pattern on a well-formed citation *)

Lemma firstn_captured (c tail : jsstring) :
  firstn (length (c ++ tail) - length tail) (c ++ tail) = c.
Proof.
  rewrite length_app, Nat.add_sub. rewrite firstn_app, Nat.sub_diag.
  rewrite firstn_all. cbn [firstn]. apply app_nil_r.
Qed.

Lemma match_here_citation ws1 d1 more post :
  ws1 <> [] -> spaces ws1 -> number d1 -> wellFormedMore more ->
  match_here OpenaiService.sourcesPattern (citation ws1 d1 more ++ post)
  = Some (MState post (Some (captured d1 more))).
Proof.
  intros Hne Hws Hd1 Hmore.
  unfold match_here, citation, OpenaiService.sourcesPattern,
    OpenaiService.lit.
  cbn [fold_right app exec rest cap1].
  change (is_char 91 91) with true.
  change (is_char 47928 47928) with true.
  change (is_char 49436 49436) with true. cbv iota.
  rewrite <- !app_assoc.
  apply exec_plus_chr; [exact Hne|exact Hws| |].
  { unfold captured. rewrite <- app_assoc. now apply number_stops_space. }
  cbn [exec rest cap1].
  assert (Hin :
    forall (k : mstate -> option mstate) r,
      k (MState (RBRACKET :: post) None) = Some r ->
      exec (Plus (Chr is_digit))
        (MState (captured d1 more ++ [RBRACKET] ++ post) None)
        (fun st' => exec (Star moreGroup) st' k) = Some r).
  { intros k r Hk. unfold captured. rewrite <- app_assoc.
    apply exec_plus_chr; [exact (proj1 Hd1)|exact (proj2 Hd1)| |].
    - apply renderMore_stops_digit; [exact Hmore|reflexivity].
    - cbn [exec rest]. apply star_moreGroup;
        [reflexivity|reflexivity|exact Hk|exact Hmore|].
      rewrite length_app. pose proof (length_renderMore more). lia. }
  apply Hin. cbn [rest exec cap1 app].
  change (is_char RBRACKET RBRACKET) with true. cbv iota.
  change (RBRACKET :: post) with ([RBRACKET] ++ post).
  now rewrite firstn_captured.
Qed.

(** ** The leftmost match *)

Lemma match_here_needs_bracket c s :
  (c =? LBRACKET)%N = false ->
  match_here OpenaiService.sourcesPattern (c :: s) = None.
Proof.
  intro H. unfold match_here, OpenaiService.sourcesPattern, OpenaiService.lit.
  cbn [fold_right exec rest]. unfold is_char at 1.
  change 91%N with LBRACKET. now rewrite H.
Qed.

(** ** Splitting the capture *)

Lemma match_here_separator_digit d s :
  is_digit d = true ->
  match_here OpenaiService.separatorPattern (d :: s) = None.
Proof.
  intro H. unfold match_here, OpenaiService.separatorPattern.
  cbn [exec rest]. now rewrite (digit_not_comma d H).
Qed.

Lemma match_here_separator ws tail :
  spaces ws -> stops is_space tail ->
  match_here OpenaiService.separatorPattern (COMMA :: ws ++ tail)
  = Some (MState tail None).
Proof.
  intros Hws Hstop. unfold match_here, OpenaiService.separatorPattern.
  cbn [exec rest cap1]. change (is_char COMMA COMMA) with true. cbv iota.
  change (exec (Star (Chr is_space)) (MState (ws ++ tail) None)
            (fun st => Some st) = Some (MState tail None)).
  now apply exec_star_chr.
Qed.

Lemma split_loop_digits ds : forall fuel acc tail,
  forallb is_digit ds = true ->
  (length (ds ++ tail) < fuel)%nat ->
  split_loop OpenaiService.separatorPattern fuel (ds ++ tail) acc
  = split_loop OpenaiService.separatorPattern (fuel - length ds) tail
      (rev ds ++ acc).
Proof.
  induction ds as [|d ds IH]; intros fuel acc tail Hds Hfuel.
  - now rewrite Nat.sub_0_r.
  - destruct fuel as [|f]; [lia|].
    cbn [forallb] in Hds. apply andb_prop in Hds as [Hd Hds].
    cbn [app split_loop]. rewrite (match_here_separator_digit d _ Hd).
    rewrite IH; [|exact Hds|simpl in Hfuel; lia].
    cbn [length rev]. rewrite <- app_assoc. reflexivity.
Qed.

Lemma split_loop_captured more : forall d acc fuel,
  forallb is_digit d = true ->
  wellFormedMore more ->
  (length (d ++ renderMore more) < fuel)%nat ->
  split_loop OpenaiService.separatorPattern fuel (d ++ renderMore more) acc
  = (rev acc ++ d) :: map snd more.
Proof.
  induction more as [|[ws ds] more IH]; intros d acc fuel Hd Hwf Hfuel.
  - rewrite split_loop_digits; [|exact Hd|exact Hfuel].
    cbn [renderMore flat_map] in *. rewrite app_nil_r in Hfuel.
    destruct (fuel - length d)%nat as [|f] eqn:Hf; [lia|].
    cbn [split_loop map]. now rewrite rev_app_distr, rev_involutive.
  - inversion Hwf as [|? ? [Hws Hds] Hwf']; subst.
    cbn [fst snd] in Hws, Hds.
    rewrite split_loop_digits; [|exact Hd|exact Hfuel].
    cbn [renderMore flat_map fst snd] in *. fold (renderMore more) in *.
    rewrite !length_app in Hfuel. cbn [length] in Hfuel.
    rewrite !length_app in Hfuel.
    destruct (fuel - length d)%nat as [|f] eqn:Hf; [lia|].
    cbn [split_loop app]. rewrite <- app_assoc.
    rewrite match_here_separator;
      [|exact Hws|now apply number_stops_space].
    cbn [rest].
    assert (Hlt : (length (ds ++ renderMore more)
                   <? length (COMMA :: ws ++ ds ++ renderMore more))%nat
                  = true).
    { apply Nat.ltb_lt. simpl. rewrite !length_app. lia. }
    rewrite Hlt. rewrite IH; [|exact (proj2 Hds)|exact Hwf'|].
    + cbn [map snd rev app]. now rewrite rev_app_distr, rev_involutive.
    + rewrite length_app. lia.
Qed.

Lemma split_captured d1 more :
  number d1 -> wellFormedMore more ->
  split OpenaiService.separatorPattern (captured d1 more)
  = d1 :: map snd more.
Proof.
  intros [_ Hd] Hwf. unfold split, captured.
  rewrite split_loop_captured; auto.
Qed.

(** ** Reading a number *)

Lemma dropWhile_space_digits ds :
  number ds -> dropWhile is_space ds = ds.
Proof.
  intros [Hne Hds]. destruct ds as [|d ds]; [congruence|].
  cbn [forallb] in Hds. apply andb_prop in Hds as [Hd _].
  cbn [dropWhile]. now rewrite (digit_not_space d Hd).
Qed.

Lemma number_rev ds : number ds -> number (rev ds).
Proof.
  intros [Hne Hds]. split.
  - intro H. apply Hne. now rewrite <- (rev_involutive ds), H.
  - apply forallb_forall. intros x Hx. apply in_rev in Hx.
    now apply (proj1 (forallb_forall _ _) Hds).
Qed.

Lemma trim_number ds : number ds -> trim ds = ds.
Proof.
  intro H. unfold trim. rewrite (dropWhile_space_digits _ H).
  rewrite (dropWhile_space_digits _ (number_rev _ H)). apply rev_involutive.
Qed.

Lemma takeWhile_decimal ds :
  forallb is_digit ds = true -> takeWhile (radix_digit 10) ds = ds.
Proof.
  induction ds as [|d ds IH]; intro H; [reflexivity|].
  cbn [forallb] in H. apply andb_prop in H as [Hd Hds].
  cbn [takeWhile]. rewrite (IH Hds).
  assert (Hr : radix_digit 10 d = true).
  { unfold radix_digit, digit_val. unfold is_digit in Hd. rewrite Hd.
    apply andb_prop in Hd as [H1 H2].
    apply N.leb_le in H1. apply N.leb_le in H2. apply N.ltb_lt. lia. }
  now rewrite Hr.
Qed.

Lemma parseInt_number ds :
  number ds -> parseInt ds = Some (Z.of_N (digits_value 10 ds)).
Proof.
  intros H. unfold parseInt. rewrite (dropWhile_space_digits _ H).
  destruct H as [Hne Hds]. destruct ds as [|d ds]; [congruence|].
  pose proof Hds as Hall.
  cbn [forallb] in Hds. apply andb_prop in Hds as [Hd Hds].
  pose proof Hd as Hd'. unfold is_digit in Hd'.
  apply andb_prop in Hd' as [H1 H2].
  apply N.leb_le in H1. apply N.leb_le in H2.
  assert (H45 : (d =? 45)%N = false) by (apply N.eqb_neq; lia).
  assert (H43 : (d =? 43)%N = false) by (apply N.eqb_neq; lia).
  rewrite H45, H43. cbv beta iota zeta.
  assert (Htw := takeWhile_decimal _ Hall).
  destruct ds as [|x r].
  - rewrite Htw. now rewrite Z.mul_1_l.
  - cbn [forallb] in Hds. apply andb_prop in Hds as [Hx _].
    unfold is_digit in Hx. apply andb_prop in Hx as [Hx1 Hx2].
    apply N.leb_le in Hx1. apply N.leb_le in Hx2.
    assert (H120 : (x =? 120)%N = false) by (apply N.eqb_neq; lia).
    assert (H88 : (x =? 88)%N = false) by (apply N.eqb_neq; lia).
    rewrite H120, H88, andb_false_r. rewrite Htw. now rewrite Z.mul_1_l.
Qed.

(** ** What the matcher accepts *)

Section MatcherSoundness.

Variable A : Type.

Lemma star_loop_sound r :
  exec_sound_at A r ->
  forall fuel st (k : mstate -> option A) x,
    star_loop (exec r) k fuel st = Some x ->
    exists a st',
      rest st = a ++ rest st' /\ matches (Star r) a /\ k st' = Some x.
Proof.
  intros IH fuel.
  induction fuel as [|f IHf]; intros st k x H.
  - exists [], st. cbn [star_loop] in H.
    split; [reflexivity|]. split; [constructor|exact H].
  - cbn [star_loop] in H. unfold orelse in H.
    match type of H with
    | match ?b with _ => _ end = _ => destruct b as [y|] eqn:Hb
    end.
    + injection H as ->. apply IH in Hb as (a & st1 & Hr & Hm & Hk).
      destruct (length (rest st1) <? length (rest st))%nat; [|discriminate].
      apply IHf in Hk as (b & st2 & Hr2 & Hm2 & Hk2).
      exists (a ++ b), st2. split; [now rewrite Hr, Hr2, app_assoc|].
      split; [now constructor|exact Hk2].
    + exists [], st. split; [reflexivity|]. split; [constructor|exact H].
Qed.

Lemma exec_sound r : exec_sound_at A r.
Proof.
  induction r as [p|r1 IH1 r2 IH2|r IH|r IH]; intros st k x H.
  - cbn [exec] in H. destruct (rest st) as [|c s'] eqn:Hr; [discriminate|].
    destruct (p c) eqn:Hp; [|discriminate].
    exists [c], (MState s' (cap1 st)). split; [reflexivity|].
    split; [now constructor|exact H].
  - cbn [exec] in H. apply IH1 in H as (a & st1 & Hr1 & Hm1 & H).
    apply IH2 in H as (b & st2 & Hr2 & Hm2 & H).
    exists (a ++ b), st2. split; [now rewrite Hr1, Hr2, app_assoc|].
    split; [now constructor|exact H].
  - cbn [exec] in H. exact (star_loop_sound r IH _ _ _ _ H).
  - cbn [exec] in H. apply IH in H as (a & st1 & Hr1 & Hm1 & H).
    eexists a, _. split; [|split; [now constructor|exact H]].
    exact Hr1.
Qed.

End MatcherSoundness.

Lemma match_here_sound r s m :
  match_here r s = Some m -> exists a, s = a ++ rest m /\ matches r a.
Proof.
  unfold match_here. intro H.
  apply exec_sound in H as (a & st' & Hr & Hm & Hk).
  injection Hk as <-. exists a. now split.
Qed.

Lemma matches_chr_inv p a :
  matches (Chr p) a -> exists c, a = [c] /\ p c = true.
Proof. intro H. inversion H; subst. now exists c. Qed.

Lemma matches_seq_inv r1 r2 s :
  matches (Seq r1 r2) s ->
  exists a b, s = a ++ b /\ matches r1 a /\ matches r2 b.
Proof. intro H. inversion H; subst. now exists a, b. Qed.

Lemma matches_group_inv r s : matches (Group r) s -> matches r s.
Proof. intro H. now inversion H. Qed.

Lemma matches_is_char c s : matches (Chr (is_char c)) s -> s = [c].
Proof.
  intro H. apply matches_chr_inv in H as (x & -> & Hx).
  unfold is_char in Hx. apply N.eqb_eq in Hx. now subst.
Qed.

Lemma matches_star_chr p s : matches (Star (Chr p)) s -> forallb p s = true.
Proof.
  intro H. remember (Star (Chr p)) as r eqn:Hr.
  induction H as [| |r0|r0 a b Ha _ Hb IHb|]; try discriminate.
  - reflexivity.
  - injection Hr as ->. apply matches_chr_inv in Ha as (c & -> & Hc).
    cbn [app forallb]. now rewrite Hc, IHb.
Qed.

Lemma matches_plus_chr p s :
  matches (Plus (Chr p)) s -> s <> [] /\ forallb p s = true.
Proof.
  unfold Plus. intro H.
  apply matches_seq_inv in H as (a & b & -> & Ha & Hb).
  apply matches_chr_inv in Ha as (c & -> & Hc).
  apply matches_star_chr in Hb. split; [discriminate|].
  cbn [app forallb]. now rewrite Hc, Hb.
Qed.

Lemma matches_moreGroup s :
  matches moreGroup s ->
  exists ws ds, spaces ws /\ number ds /\ s = COMMA :: ws ++ ds.
Proof.
  unfold moreGroup. intro H.
  apply matches_seq_inv in H as (a & b & -> & Ha & Hb).
  apply matches_is_char in Ha as ->.
  apply matches_seq_inv in Hb as (ws & ds & -> & Hws & Hds).
  apply matches_star_chr in Hws. apply matches_plus_chr in Hds.
  now exists ws, ds.
Qed.

Lemma matches_star_moreGroup s :
  matches (Star moreGroup) s ->
  exists more, wellFormedMore more /\ s = renderMore more.
Proof.
  intro H. remember (Star moreGroup) as r eqn:Hr.
  induction H as [| |r0|r0 a b Ha _ Hb IHb|]; try discriminate.
  - exists []. split; [constructor|reflexivity].
  - injection Hr as ->.
    apply matches_moreGroup in Ha as (ws & ds & Hws & Hds & ->).
    destruct (IHb eq_refl) as (more & Hwf & ->).
    exists ((ws, ds) :: more). split.
    + constructor; [now split|exact Hwf].
    + unfold renderMore. cbn [flat_map fst snd app].
      now rewrite <- ?app_assoc.
Qed.

(** The pattern matches the citations and nothing else. *)
Lemma matches_sourcesPattern s :
  matches OpenaiService.sourcesPattern s ->
  exists ws1 d1 more,
    ws1 <> [] /\ spaces ws1 /\ number d1 /\ wellFormedMore more
    /\ s = citation ws1 d1 more.
Proof.
  unfold OpenaiService.sourcesPattern, OpenaiService.lit.
  cbn [fold_right]. intro H.
  apply matches_seq_inv in H as (a1 & s1 & -> & Ha1 & H).
  apply matches_is_char in Ha1 as ->.
  apply matches_seq_inv in H as (a2 & s2 & -> & Ha2 & H).
  apply matches_is_char in Ha2 as ->.
  apply matches_seq_inv in H as (a3 & s3 & -> & Ha3 & H).
  apply matches_is_char in Ha3 as ->.
  apply matches_seq_inv in H as (ws1 & s4 & -> & Hws & H).
  apply matches_plus_chr in Hws as [Hne Hws].
  apply matches_seq_inv in H as (g & s5 & -> & Hg & H).
  apply matches_is_char in H as ->.
  apply matches_group_inv in Hg.
  apply matches_seq_inv in Hg as (d1 & m & -> & Hd1 & Hm).
  apply matches_plus_chr in Hd1.
  apply matches_star_moreGroup in Hm as (more & Hmore & ->).
  exists ws1, d1, more. repeat split; auto; try apply Hd1.
Qed.

Lemma match_here_startsCitation s m :
  match_here OpenaiService.sourcesPattern s = Some m -> startsCitation s.
Proof.
  intro H. apply match_here_sound in H as (a & -> & Ha).
  apply matches_sourcesPattern in Ha
    as (ws1 & d1 & more & Hne & Hws & Hd1 & Hmore & ->).
  now exists ws1, d1, more, (rest m).
Qed.

Lemma startsCitation_match_here s :
  startsCitation s ->
  exists m, match_here OpenaiService.sourcesPattern s = Some m.
Proof.
  intros (ws1 & d1 & more & post & Hne & Hws & Hd1 & Hmore & ->).
  eexists. now apply match_here_citation.
Qed.

(** The leftmost match is the first occurrence. *)
Lemma search_first_occurrence pre s m :
  firstOccurrenceAfter pre s ->
  match_here OpenaiService.sourcesPattern s = Some m ->
  search OpenaiService.sourcesPattern (pre ++ s) = Some m.
Proof.
  intros Hpre Hm. induction pre as [|c pre IH].
  - destruct s; cbn [app search]; now rewrite Hm.
  - cbn [app search].
    destruct (match_here OpenaiService.sourcesPattern (c :: pre ++ s))
      as [m'|] eqn:Hc.
    + exfalso. apply (Hpre [] (c :: pre) eq_refl); [discriminate|].
      exact (match_here_startsCitation _ _ Hc).
    + apply IH. intros a b -> Hb. exact (Hpre (c :: a) b eq_refl Hb).
Qed.

Lemma noMatchWithin_sound pre rest :
  noMatchWithin pre rest = true -> firstOccurrenceAfter pre rest.
Proof.
  induction pre as [|c pre IH]; intros H a b Hab Hb Hs.
  - destruct a; [|discriminate]. cbn [app] in Hab. now subst.
  - cbn [noMatchWithin] in H.
    destruct (match_here OpenaiService.sourcesPattern ((c :: pre) ++ rest))
      as [m|] eqn:Hc; [discriminate|].
    destruct a as [|x a].
    + cbn [app] in Hab. subst b.
      apply startsCitation_match_here in Hs as [m Hm]. congruence.
    + injection Hab as _ Hab. exact (IH H a b Hab Hb Hs).
Qed.

(** ** From the answer text to the sources *)

Lemma sourceIndicesOf_citation pre ws1 d1 more post :
  firstOccurrenceAfter pre (citation ws1 d1 more ++ post) ->
  ws1 <> [] -> spaces ws1 -> number d1 ->
  wellFormedMore more ->
  OpenaiService.sourceIndicesOf (pre ++ citation ws1 d1 more ++ post)
  = map (fun ds => Some (citedIndex ds)) (d1 :: map snd more).
Proof.
  intros Hpre Hne Hws Hd1 Hmore. unfold OpenaiService.sourceIndicesOf.
  rewrite (search_first_occurrence pre _ _ Hpre
             (match_here_citation ws1 d1 more post Hne Hws Hd1 Hmore)).
  cbn [cap1].
  destruct (captured d1 more) as [|c g] eqn:Hcap.
  { unfold captured in Hcap. destruct Hd1 as [Hd1 _].
    destruct d1; [congruence|discriminate]. }
  rewrite <- Hcap, (split_captured d1 more Hd1 Hmore).
  apply map_ext_in. intros ds Hin.
  assert (Hds : number ds).
  { destruct Hin as [<-|Hin]; [exact Hd1|].
    apply in_map_iff in Hin as [[ws ds'] [<- Hin]].
    unfold wellFormedMore in Hmore.
    apply (proj1 (Forall_forall _ _) Hmore) in Hin. exact (proj2 Hin). }
  rewrite (trim_number ds Hds), (parseInt_number ds Hds). reflexivity.
Qed.

Lemma sourceOf_in_range docs i :
  inRangeZ docs i = true ->
  OpenaiService.sourceOf docs (Some i) = Ok (citedSource docs i).
Proof.
  unfold inRangeZ. intro H. apply andb_prop in H as [H0 H1].
  apply Z.leb_le in H0. apply Z.ltb_lt in H1.
  unfold OpenaiService.sourceOf, OpenaiService.at_index.
  assert (Hneg : (i <? 0)%Z = false) by (apply Z.ltb_ge; lia).
  rewrite Hneg.
  assert (Hlen : (Z.to_nat i < length docs)%nat) by lia.
  rewrite (nth_error_nth' docs emptyDocument Hlen). reflexivity.
Qed.

Lemma mapM_sourceOf_filter docs idxs :
  OpenaiService.mapM (OpenaiService.sourceOf docs)
    (filter (OpenaiService.inRange docs) (map Some idxs))
  = Ok (map (citedSource docs) (filter (inRangeZ docs) idxs)).
Proof.
  induction idxs as [|i idxs IH]; [reflexivity|].
  cbn [map filter]. change (OpenaiService.inRange docs (Some i))
    with (inRangeZ docs i).
  destruct (inRangeZ docs i) eqn:Hi; [|exact IH].
  cbn [OpenaiService.mapM map]. now rewrite (sourceOf_in_range docs i Hi), IH.
Qed.

Lemma extractSources_citation pre ws1 d1 more post docs :
  firstOccurrenceAfter pre (citation ws1 d1 more ++ post) ->
  ws1 <> [] -> spaces ws1 -> number d1 ->
  wellFormedMore more ->
  OpenaiService.extractSources (pre ++ citation ws1 d1 more ++ post) docs
  = Ok (map (citedSource docs)
          (filter (inRangeZ docs) (map citedIndex (d1 :: map snd more)))).
Proof.
  intros Hpre Hne Hws Hd1 Hmore. unfold OpenaiService.extractSources.
  rewrite (sourceIndicesOf_citation pre ws1 d1 more post Hpre Hne Hws Hd1
             Hmore).
  rewrite <- (map_map citedIndex Some). apply mapM_sourceOf_filter.
Qed.




Lemma run_handleQuestion_invalid E query w :
  validQuery query = false ->
  run (Server.handleQuestion E query) w = (w, Ok invalidQuestion).
Proof.
  unfold validQuery, Server.handleQuestion. intro H.
  destruct query as [[|c q]|]; try reflexivity.
  apply negb_false_iff in H. rewrite H. reflexivity.
Qed.

Lemma run_handleQuestion_valid E s w :
  validQuery (Some s) = true ->
  run (Server.handleQuestion E (Some s)) w =
  match ensureInitialized E w with
  | (w1, Settles (Ok _)) => answerQuestion E s w1
  | (w1, Settles (Err e)) =>
    (w1, Ok (Server.ErrorReply 500 (questionError e)))
  | (w1, Crashes e) => (w1, Crashes e)
  end.
Proof.
  unfold validQuery, Server.handleQuestion, ensureInitialized,
    answerQuestion.
  intro H.
  destruct s as [|c q]; [discriminate|].
  apply negb_true_iff in H. rewrite H.
  rewrite run_try_catch, run_bind, run_get, run_bind.
  destruct (isInitialized w).
  - cbn [run]. rewrite run_bind.
    destruct (run (RagService.retrieveRelevantDocuments E (c :: q) None) w)
      as [w2 [[docs|e]|e]]; [|reflexivity|reflexivity].
    rewrite run_bind.
    destruct (run (OpenaiService.generateAnswer E (c :: q) (Some docs)) w2)
      as [w3 [[a|e]|e]]; reflexivity.
  - rewrite run_bind.
    destruct (run (RagService.initializeVectorStore E) w)
      as [wi [[b|e]|e]]; [|reflexivity|reflexivity].
    rewrite run_modify, run_bind.
    destruct (run (RagService.retrieveRelevantDocuments E (c :: q) None)
                (set_isInitialized b wi)) as [w2 [[docs|e]|e]];
      [|reflexivity|reflexivity].
    rewrite run_bind.
    destruct (run (OpenaiService.generateAnswer E (c :: q) (Some docs)) w2)
      as [w3 [[a|e]|e]]; reflexivity.
Qed.



Lemma generateAnswer_settles E query docs w :
  exists r,
    snd (run (OpenaiService.generateAnswer E query docs) w) = Settles r.
Proof.
  unfold OpenaiService.generateAnswer. rewrite run_try_catch.
  destruct docs as [[|d ds]|]; try (eexists; reflexivity).
  rewrite run_bind. unfold OpenaiService.model_invoke. rewrite run_await.
  cbn [fst snd].
  destruct (llm E (OpenaiService.buildPrompt query (d :: ds)))
    as [[|c text]|e]; try (eexists; reflexivity).
  rewrite run_bind.
  destruct (OpenaiService.extractSources (c :: text) (d :: ds));
    eexists; reflexivity.
Qed.


Lemma retrieve_initialized_settles E query topK v w :
  vectorStore w = Some v ->
  exists r,
    run (RagService.retrieveRelevantDocuments E query topK) w
    = (w, Settles r).
Proof.
  intro Hv. rewrite (run_retrieve_initialized E query topK v w Hv).
  destruct (embed_query_error E query); eexists; reflexivity.
Qed.












(* ================================================================== *)
(** * Further properties of the services *)
(* ================================================================== *)

Lemma mapM_sourceOf_in_range docs (idxs : list (option Z)) :
  exists ss,
    OpenaiService.mapM (OpenaiService.sourceOf docs)
      (filter (OpenaiService.inRange docs) idxs) = Ok ss
    /\ length ss = length (filter (OpenaiService.inRange docs) idxs)
    /\ Forall (fun s => exists i,
                 inRangeZ docs i = true /\ s = citedSource docs i) ss.
Proof.
  induction idxs as [|[i|] idxs IH]; cbn [filter].
  - exists []. repeat split; constructor.
  - change (OpenaiService.inRange docs (Some i)) with (inRangeZ docs i).
    destruct (inRangeZ docs i) eqn:Hi; [|exact IH].
    destruct IH as (ss & Hss & Hlen & Hall).
    exists (citedSource docs i :: ss). cbn [OpenaiService.mapM].
    rewrite (sourceOf_in_range docs i Hi), Hss.
    split; [reflexivity|]. split; [simpl; congruence|].
    constructor; [now exists i|exact Hall].
  - exact IH.
Qed.

(** X1.  Citation extraction never fails, whatever the answer text: it
    yields at most as many sources as numbers were read, and every source
    is the entry of an in-range chunk. *)
Theorem extractSources_never_fails text docs :
  exists ss,
    OpenaiService.extractSources text docs = Ok ss
    /\ (length ss <= length (OpenaiService.sourceIndicesOf text))%nat
    /\ Forall (fun s => exists i,
                 inRangeZ docs i = true /\ s = citedSource docs i) ss.
Proof.
  unfold OpenaiService.extractSources.
  destruct (mapM_sourceOf_in_range docs (OpenaiService.sourceIndicesOf text))
    as (ss & Hss & Hlen & Hall).
  exists ss. split; [exact Hss|]. split; [|exact Hall].
  rewrite Hlen. apply filter_length_le.
Qed.

Lemma search_no_bracket text :
  noBracket text -> search OpenaiService.sourcesPattern text = None.
Proof.
  induction text as [|c text IH]; intro H; [reflexivity|].
  unfold noBracket in H. cbn [forallb] in H.
  apply andb_prop in H as [Hc H]. apply negb_true_iff in Hc.
  cbn [search]. rewrite (match_here_needs_bracket c text Hc). now apply IH.
Qed.

(** X2.  An answer text without any opening bracket is returned as it
    is, with no sources, although chunks were retrieved. *)
Theorem generateAnswer_without_citation E query docs w text :
  docs <> [] -> text <> [] -> noBracket text ->
  llm E (OpenaiService.buildPrompt query docs) = Ok text ->
  run (OpenaiService.generateAnswer E query (Some docs)) w
  = (log_llmCall (OpenaiService.buildPrompt query docs) w,
     Ok (OpenaiService.mkAnswer text [])).
Proof.
  intros Hdocs Htext Hnb Hllm.
  destruct docs as [|d ds]; [congruence|].
  destruct text as [|c text]; [congruence|].
  unfold OpenaiService.generateAnswer.
  rewrite run_try_catch, run_bind. unfold OpenaiService.model_invoke.
  rewrite run_await, Hllm. cbn [fst snd]. rewrite run_bind.
  unfold OpenaiService.extractSources, OpenaiService.sourceIndicesOf.
  rewrite (search_no_bracket (c :: text) Hnb). reflexivity.
Qed.

Lemma generateAnswer_without_citation_witness :
  run (OpenaiService.generateAnswer Scenario.emptyEnv Scenario.question
         (Some Scenario.twoChunks)) Scenario.coldStart
  = (log_llmCall
       (OpenaiService.buildPrompt Scenario.question Scenario.twoChunks)
       Scenario.coldStart,
     Ok (OpenaiService.mkAnswer (js "문서가 없습니다.") [])).
Proof.
  apply (generateAnswer_without_citation Scenario.emptyEnv Scenario.question
           Scenario.twoChunks Scenario.coldStart (js "문서가 없습니다."));
    try discriminate; reflexivity.
Defined.

Lemma count_occ_filter (p : Z -> bool) l i :
  count_occ Z.eq_dec (filter p l) i
  = if p i then count_occ Z.eq_dec l i else 0%nat.
Proof.
  induction l as [|x l IH]; [now destruct (p i)|].
  cbn [filter]. destruct (p x) eqn:Hx; cbn [count_occ];
    destruct (Z.eq_dec x i) as [->|Hne]; rewrite ?IH;
    try rewrite Hx; reflexivity.
Qed.

(** X3.  Sources are not deduplicated: every number of the first
    citation that is in range yields the entry of its chunk, as many
    times as it is cited. *)
Theorem repeated_citation_is_repeated pre ws1 d1 more post docs :
  firstOccurrenceAfter pre (citation ws1 d1 more ++ post) ->
  ws1 <> [] -> spaces ws1 -> number d1 -> wellFormedMore more ->
  exists kept,
    OpenaiService.extractSources (pre ++ citation ws1 d1 more ++ post) docs
    = Ok (map (citedSource docs) kept)
    /\ forall i,
         inRangeZ docs i = true ->
         count_occ Z.eq_dec kept i
         = count_occ Z.eq_dec (map citedIndex (d1 :: map snd more)) i.
Proof.
  intros Hpre Hne Hws Hd Hmore.
  exists (filter (inRangeZ docs) (map citedIndex (d1 :: map snd more))).
  split.
  - now apply extractSources_citation.
  - intros i Hi. now rewrite count_occ_filter, Hi.
Qed.

Lemma repeated_citation_is_repeated_witness :
  exists kept,
    OpenaiService.extractSources
      (js "[1] " ++ citation (js " ") (js "2") [(js " ", js "2")] ++ js ".")
      Scenario.twoChunks
    = Ok (map (citedSource Scenario.twoChunks) kept)
    /\ forall i,
         inRangeZ Scenario.twoChunks i = true ->
         count_occ Z.eq_dec kept i
         = count_occ Z.eq_dec
             (map citedIndex (js "2" :: map snd [(js " ", js "2")])) i.
Proof.
  apply (repeated_citation_is_repeated (js "[1] ") (js " ") (js "2")
           [(js " ", js "2")] (js ".") Scenario.twoChunks).
  - apply noMatchWithin_sound. vm_compute. reflexivity.
  - discriminate.
  - reflexivity.
  - split; [discriminate|reflexivity].
  - repeat constructor; discriminate.
Defined.

(** X4.  With retrieved chunks the generation oracle is called exactly
    once, with the prompt built from the query and the chunks, whatever
    the outcome; a returned answer is the oracle's non-empty text, and an
    empty text makes the call fail. *)
Theorem generateAnswer_calls_oracle_once E query docs w :
  docs <> [] ->
  let prompt := OpenaiService.buildPrompt query docs in
  let out := run (OpenaiService.generateAnswer E query (Some docs)) w in
  fst out = log_llmCall prompt w
  /\ (forall a, snd out = Ok a ->
        llm E prompt = Ok (OpenaiService.answer a)
        /\ OpenaiService.answer a <> [])
  /\ (llm E prompt = Ok [] -> exists e, snd out = Err e).
Proof.
  intros Hdocs prompt out. subst out prompt.
  destruct docs as [|d ds]; [congruence|].
  unfold OpenaiService.generateAnswer.
  rewrite run_try_catch, run_bind. unfold OpenaiService.model_invoke.
  rewrite run_await. cbn [fst snd].
  destruct (llm E (OpenaiService.buildPrompt query (d :: ds)))
    as [[|c text]|e].
  - cbn [run fst snd]. split; [reflexivity|]. split; [discriminate|].
    intros _. eexists. reflexivity.
  - rewrite run_bind.
    destruct (mapM_sourceOf_in_range (d :: ds)
                (OpenaiService.sourceIndicesOf (c :: text)))
      as (ss & Hss & _).
    unfold OpenaiService.extractSources. rewrite Hss. cbn [run fst snd].
    split; [reflexivity|]. split; [|discriminate].
    intros a Ha. injection Ha as <-. split; [reflexivity|discriminate].
  - cbn [run fst snd]. split; [reflexivity|].
    split; discriminate.
Qed.

Lemma generateAnswer_calls_oracle_once_witness :
  fst (run (OpenaiService.generateAnswer Scenario.mixedEnv Scenario.question
              (Some Scenario.twoChunks)) Scenario.coldStart)
  = log_llmCall
      (OpenaiService.buildPrompt Scenario.question Scenario.twoChunks)
      Scenario.coldStart.
Proof.
  apply (generateAnswer_calls_oracle_once Scenario.mixedEnv Scenario.question
           Scenario.twoChunks Scenario.coldStart).
  discriminate.
Defined.

Lemma run_listObjectsByExtension_any E extensions w :
  run (S3Service.listObjectsByExtension E extensions) w =
  (w, match s3_list E with
      | Ok (Some items) =>
        Ok (filter (S3Service.has_extension extensions) items)
      | Ok None =>
        Err (listingError
               (js "Cannot read properties of undefined (reading 'map')"))
      | Err e => Err (listingError e)
      end).
Proof.
  unfold S3Service.listObjectsByExtension, S3Service.listAllObjects,
    S3Service.send_ListObjectsV2.
  rewrite run_try_catch, run_bind, run_try_catch, run_bind, run_await.
  cbn [fst snd].
  destruct (s3_list E) as [[items|]|e]; try reflexivity.
  cbn [run]. now rewrite map_S3Item_id.
Qed.

Lemma has_extension_supportedKey extensions obj :
  S3Service.has_extension extensions obj = true ->
  supportedKey extensions (key obj).
Proof.
  unfold S3Service.has_extension, S3Service.includes, supportedKey.
  intro H. apply existsb_exists in H as (x & Hx & Heq).
  apply jseqb_eq in Heq. now subst.
Qed.

(** X6.  For ASCII extensions, the ones on which the lower-casing at
    hand is the one of the source: a successful listing by extension
    leaves the world alone and returns, in listing order, exactly the
    objects whose lower-cased extension is one of those asked for. *)
Theorem listObjectsByExtension_only_listed_extensions E extensions w w' objs :
  Forall asciiOnly extensions ->
  run (S3Service.listObjectsByExtension E extensions) w = (w', Ok objs) ->
  w' = w
  /\ Forall (fun obj => supportedKey extensions (key obj)) objs
  /\ exists items,
       s3_list E = Ok (Some items)
       /\ objs = filter (S3Service.has_extension extensions) items.
Proof.
  intros _. rewrite run_listObjectsByExtension_any.
  destruct (s3_list E) as [[items|]|e]; intro H; try discriminate.
  injection H as <- <-. split; [reflexivity|]. split.
  - apply Forall_forall. intros obj Hin. apply filter_In in Hin as [_ Hin].
    now apply has_extension_supportedKey.
  - now exists items.
Qed.

Lemma listObjectsByExtension_only_listed_extensions_witness :
  Scenario.coldStart = Scenario.coldStart
  /\ Forall (fun obj =>
               supportedKey RagService.SUPPORTED_EXTENSIONS (key obj))
       (filter (S3Service.has_extension RagService.SUPPORTED_EXTENSIONS)
          Scenario.mixedBucket)
  /\ exists items,
       s3_list Scenario.mixedEnv = Ok (Some items)
       /\ filter (S3Service.has_extension RagService.SUPPORTED_EXTENSIONS)
            Scenario.mixedBucket
          = filter (S3Service.has_extension RagService.SUPPORTED_EXTENSIONS)
              items.
Proof.
  apply (listObjectsByExtension_only_listed_extensions Scenario.mixedEnv
           RagService.SUPPORTED_EXTENSIONS Scenario.coldStart).
  - repeat constructor.
  - reflexivity.
Defined.

(** X7.  The document listing handler leaves the world alone and always
    replies: with the supported objects of the listing, in listing order,
    and their number; or, when the listing fails or comes back without
    [Contents], with status 500 and the error under the prefixes of the
    handler and of the listing. *)
Theorem listDocuments_replies_supported_only E w :
  run (Server.listDocuments E) w
  = (w,
     Ok match s3_list E with
        | Ok (Some items) =>
          Server.DocumentsReply
            (length
               (filter
                  (S3Service.has_extension RagService.SUPPORTED_EXTENSIONS)
                  items))
            (filter (S3Service.has_extension RagService.SUPPORTED_EXTENSIONS)
               items)
        | Ok None =>
          Server.ErrorReply 500
            (listDocumentsError (listingError missingContents))
        | Err e =>
          Server.ErrorReply 500 (listDocumentsError (listingError e))
        end)
  /\ forall items,
       Forall (fun obj =>
                 supportedKey RagService.SUPPORTED_EXTENSIONS (key obj))
         (filter (S3Service.has_extension RagService.SUPPORTED_EXTENSIONS)
            items).
Proof.
  split.
  - unfold Server.listDocuments.
    rewrite run_try_catch, run_bind.
    change [js ".pdf"; js ".txt"; js ".md"; js ".docx"; js ".html"]
      with RagService.SUPPORTED_EXTENSIONS.
    rewrite run_listObjectsByExtension_any.
    destruct (s3_list E) as [[items|]|e]; reflexivity.
  - intro items. apply Forall_forall. intros obj Hin.
    apply filter_In in Hin as [_ Hin].
    now apply has_extension_supportedKey.
Qed.

Lemma buildResult_crash E t w w' e :
  buildResult E t w = (w', Crashes e) -> ingested E = Crashes e.
Proof.
  unfold buildResult.
  destruct (ingested E) as [[[|d' ds]|e0]|e0]; try discriminate.
  - destruct (embed_documents_error E [RagService.sentinelDocument]);
      discriminate.
  - destruct (split_documents E (d' :: ds)) as [chunks|e1]; [|discriminate].
    cbv zeta. destruct (embed_documents_error E chunks); [discriminate|].
    destruct (save_fault E); discriminate.
  - intro H. injection H as _ ->. reflexivity.
Qed.

(** Initialization crashes only when the ingestion pass does. *)
Lemma initializeVectorStore_crash E w w' e :
  run (RagService.initializeVectorStore E) w = (w', Crashes e) ->
  ingested E = Crashes e.
Proof.
  destruct (run_initializeVectorStore E w) as [t ->]. unfold initResult.
  destruct (vectorDB w) as [|[d|]];
    try apply buildResult_crash. discriminate.
Qed.

Lemma retrieve_crash E s topK w w' e :
  run (RagService.retrieveRelevantDocuments E s topK) w = (w', Crashes e) ->
  ingested E = Crashes e.
Proof.
  destruct (vectorStore w) as [v|] eqn:Hv.
  - destruct (retrieve_initialized_settles E s topK v w Hv) as [r ->].
    discriminate.
  - unfold RagService.retrieveRelevantDocuments.
    rewrite run_try_catch, run_bind, run_get, Hv, run_bind, run_bind.
    pose proof (initializeVectorStore_crash E w) as Hc.
    destruct (run (RagService.initializeVectorStore E) w)
      as [wi [[b|e0]|e0]]; [|discriminate|].
    + cbn [run]. rewrite run_bind, run_get.
      destruct (vectorStore wi) as [v|]; [|discriminate].
      unfold similaritySearch. rewrite run_await. cbn [fst snd].
      destruct (embed_query_error E s); discriminate.
    + cbn [run]. intro H. injection H as _ <-. exact (Hc wi e0 eq_refl).
Qed.

Lemma answerQuestion_replies E s w :
  match snd (answerQuestion E s w) with
  | Settles (Ok (Server.ChatReply _ _)) => True
  | Settles (Ok (Server.ErrorReply status _)) => status = 500%N
  | Crashes e => ingested E = Crashes e
  | _ => False
  end.
Proof.
  unfold answerQuestion.
  pose proof (retrieve_crash E s None w) as Hc.
  destruct (run (RagService.retrieveRelevantDocuments E s None) w)
    as [w2 [[docs|e]|e]]; cbn [snd]; [|reflexivity|exact (Hc w2 e eq_refl)].
  destruct (generateAnswer_settles E s (Some docs) w2) as [r Hr].
  destruct (run (OpenaiService.generateAnswer E s (Some docs)) w2)
    as [w3 c]. cbn [snd] in Hr. subst c.
  destruct r; cbn [snd]; [exact I|reflexivity].
Qed.

(** X8.  The question handler never throws.  A missing, empty or blank
    query gets the 400 reply with the world untouched (no
    initialization, no oracle call).  Any other query gets an answer or
    a 500 reply, unless the process ends with the uncaught error of an
    ingestion pass that crashed. *)
Theorem handleQuestion_always_replies E query w :
  exists w' c,
    run (Server.handleQuestion E query) w = (w', c)
    /\ (validQuery query = false -> w' = w /\ c = Ok invalidQuestion)
    /\ (validQuery query = true ->
        match c with
        | Settles (Ok (Server.ChatReply _ _)) => True
        | Settles (Ok (Server.ErrorReply status _)) => status = 500%N
        | Crashes e => ingested E = Crashes e
        | _ => False
        end).
Proof.
  destruct (validQuery query) eqn:Hq.
  - destruct query as [s|]; [|discriminate].
    rewrite (run_handleQuestion_valid E s w Hq).
    unfold ensureInitialized.
    destruct (isInitialized w).
    + pose proof (answerQuestion_replies E s w) as Ha.
      destruct (answerQuestion E s w) as [w' c]. exists w', c.
      split; [reflexivity|]. split; [discriminate|]. intros _. exact Ha.
    + pose proof (initializeVectorStore_crash E w) as Hc.
      destruct (run (RagService.initializeVectorStore E) w)
        as [wi [[b|e]|e]].
      * pose proof (answerQuestion_replies E s (set_isInitialized b wi))
          as Ha.
        destruct (answerQuestion E s (set_isInitialized b wi)) as [w' c].
        exists w', c.
        split; [reflexivity|]. split; [discriminate|]. intros _. exact Ha.
      * eexists; eexists.
        split; [reflexivity|]. split; [discriminate|]. reflexivity.
      * eexists; eexists.
        split; [reflexivity|]. split; [discriminate|].
        intros _. exact (Hc wi e eq_refl).
  - rewrite (run_handleQuestion_invalid E query w Hq).
    eexists; eexists. split; [reflexivity|]. split; [auto|discriminate].
Qed.

Lemma onListen_sets_flag_whatever_the_outcome E w :
  match run (RagService.initializeVectorStore E) w with
  | (wi, Settles (Ok b)) =>
    run (Server.onListen E) w = (set_isInitialized true wi, Ok tt)
  | (wi, Settles (Err e)) => run (Server.onListen E) w = (wi, Ok tt)
  | (wi, Crashes e) => run (Server.onListen E) w = (wi, Crashes e)
  end.
Proof.
  unfold Server.onListen. rewrite run_try_catch, run_bind.
  destruct (run (RagService.initializeVectorStore E) w)
    as [wi [[b|e]|e]]; reflexivity.
Qed.

(** X9.  At start-up the flag is set whatever initialization returns: on
    an empty corpus the placeholder is built and the status query
    reports initialized. *)
Theorem onListen_reports_initialized_on_empty_corpus E w :
  loadable (vectorDB w) = false ->
  ingested E = Ok [] ->
  embed_documents_error E [RagService.sentinelDocument] = None ->
  exists w',
    run (Server.onListen E) w = (w', Ok tt)
    /\ isInitialized w' = true
    /\ vectorStore w'
       = Some (MemoryVectorStore [RagService.sentinelDocument])
    /\ run Server.checkStatus w' = (w', Ok (Server.StatusReply true)).
Proof.
  intros Hl Hing Hemb.
  pose proof (onListen_sets_flag_whatever_the_outcome E w) as H.
  destruct (run_initializeVectorStore E w) as [t Ht]. rewrite Ht in H.
  assert (Hres : initResult E t w
    = (set_vectorStore
         (Some (MemoryVectorStore [RagService.sentinelDocument]))
         (log_embedPass [RagService.sentinelDocument] (set_tempFiles t w)),
       Ok false)).
  { unfold initResult, buildResult. rewrite Hing, Hemb.
    destruct (vectorDB w) as [|[d|]]; try reflexivity. discriminate. }
  rewrite Hres in H. eexists. split; [exact H|].
  repeat split.
Qed.

Lemma onListen_reports_initialized_on_empty_corpus_witness :
  exists w',
    run (Server.onListen Scenario.emptyEnv) Scenario.coldStart = (w', Ok tt)
    /\ isInitialized w' = true
    /\ vectorStore w'
       = Some (MemoryVectorStore [RagService.sentinelDocument])
    /\ run Server.checkStatus w' = (w', Ok (Server.StatusReply true)).
Proof.
  apply (onListen_reports_initialized_on_empty_corpus Scenario.emptyEnv
           Scenario.coldStart); reflexivity.
Defined.

Lemma buildResult_failure E t w w' e :
  buildResult E t w = (w', Err e) ->
  (exists e0, e = initError e0)
  /\ isInitialized w' = isInitialized w
  /\ llmCalls w' = llmCalls w
  /\ diskAfterFailure E (vectorDB w) (vectorDB w')
  /\ (save_fault E = None -> vectorStore w' = vectorStore w).
Proof.
  unfold buildResult, diskAfterFailure.
  destruct (ingested E) as [[[|d' ds]|e0]|e0]; try discriminate.
  - destruct (embed_documents_error E [RagService.sentinelDocument])
      as [e1|]; [|discriminate].
    intro H; injection H as <- <-.
    split; [now exists e1|repeat split; auto].
  - destruct (split_documents E (d' :: ds)) as [chunks|e1].
    + cbv zeta. destruct (embed_documents_error E chunks) as [e2|].
      * intro H; injection H as <- <-.
        split; [now exists e2|repeat split; auto].
      * destruct (save_fault E) as [[e3|e3]|]; [| |discriminate];
          intro H; injection H as <- <-;
          (split; [now exists e3|]); (split; [reflexivity|]);
          (split; [reflexivity|]); (split; [|discriminate]).
        -- now left.
        -- right. split; [now exists e3|reflexivity].
    + intro H; injection H as <- <-.
      split; [now exists e1|repeat split; auto].
  - intro H; injection H as <- <-.
    split; [now exists e0|repeat split; auto].
Qed.

Lemma initializeVectorStore_failure E w w' e :
  run (RagService.initializeVectorStore E) w = (w', Err e) ->
  (exists e0, e = initError e0)
  /\ isInitialized w' = isInitialized w
  /\ llmCalls w' = llmCalls w
  /\ loadable (vectorDB w) = false
  /\ diskAfterFailure E (vectorDB w) (vectorDB w')
  /\ (save_fault E = None -> vectorStore w' = vectorStore w).
Proof.
  destruct (run_initializeVectorStore E w) as [t ->]. unfold initResult.
  destruct (vectorDB w) as [|[d|]] eqn:Hdb; try discriminate;
    intro H; apply buildResult_failure in H;
    cbn [vectorDB] in H; rewrite Hdb in H;
    destruct H as (H1 & H2 & H3 & H4 & H5); repeat split; auto.
Qed.

Lemma diskAfterFailure_not_loadable E before after :
  loadable before = false ->
  diskAfterFailure E before after ->
  loadable after = false.
Proof. intros Hb [-> | [_ ->]]; [exact Hb|reflexivity]. Qed.

(** X10.  A failed initialization carries the initialization prefix in
    its message and leaves the flag and the oracle log as they were.
    The directory at the vector store path holds no loadable store
    afterwards: it is as it was, unless the index could not be written
    into the directory made for it.  Unless the failure is that of
    saving, the store in memory is as it was too. *)
Theorem initializeVectorStore_failure_keeps_state E w w' e :
  run (RagService.initializeVectorStore E) w = (w', Err e) ->
  (exists e0, e = initError e0)
  /\ isInitialized w' = isInitialized w
  /\ llmCalls w' = llmCalls w
  /\ loadable (vectorDB w') = false
  /\ ((forall e0, save_fault E <> Some (CannotWriteIndex e0)) ->
      vectorDB w' = vectorDB w)
  /\ (save_fault E = None -> vectorStore w' = vectorStore w).
Proof.
  intro H. apply initializeVectorStore_failure in H
    as (H1 & H2 & H3 & H4 & H5 & H6).
  split; [exact H1|]. split; [exact H2|]. split; [exact H3|].
  split; [exact (diskAfterFailure_not_loadable E _ _ H4 H5)|].
  split; [|exact H6].
  intro Hno. destruct H5 as [H5|[[e0 He0] _]]; [exact H5|].
  now destruct (Hno e0).
Qed.

Lemma initializeVectorStore_failure_keeps_state_witness :
  (exists e0,
     initError (js "ENOSPC: no space left on device, write") = initError e0)
  /\ isInitialized
       (fst (run (RagService.initializeVectorStore fullDiskEnv)
               Scenario.coldStart))
     = isInitialized Scenario.coldStart
  /\ llmCalls
       (fst (run (RagService.initializeVectorStore fullDiskEnv)
               Scenario.coldStart))
     = llmCalls Scenario.coldStart
  /\ loadable
       (vectorDB
          (fst (run (RagService.initializeVectorStore fullDiskEnv)
                  Scenario.coldStart))) = false
  /\ ((forall e0, save_fault fullDiskEnv <> Some (CannotWriteIndex e0)) ->
      vectorDB
        (fst (run (RagService.initializeVectorStore fullDiskEnv)
                Scenario.coldStart))
      = vectorDB Scenario.coldStart)
  /\ (save_fault fullDiskEnv = None ->
      vectorStore
        (fst (run (RagService.initializeVectorStore fullDiskEnv)
                Scenario.coldStart))
      = vectorStore Scenario.coldStart).
Proof.
  apply (initializeVectorStore_failure_keeps_state fullDiskEnv
           Scenario.coldStart).
  vm_compute. reflexivity.
Defined.

(** X11.  When reindexing fails the handler replies 500 and leaves the
    flag as it was.  No loadable store is on disk afterwards: the
    directory is gone, unless the index could not be written into the
    directory made anew.  Unless saving failed, no store is left in
    memory either. *)
Theorem failed_reindex_leaves_no_store E w w' e :
  run (RagService.reindexDocuments E) w = (w', Err e) ->
  run (Server.reindexDocuments E) w
  = (w', Ok (Server.ErrorReply 500 (reindexHandlerError e)))
  /\ isInitialized w' = isInitialized w
  /\ loadable (vectorDB w') = false
  /\ ((forall e0, save_fault E <> Some (CannotWriteIndex e0)) ->
      vectorDB w' = Missing)
  /\ (save_fault E = None -> vectorStore w' = None).
Proof.
  intro H. split.
  - unfold Server.reindexDocuments. rewrite run_try_catch, run_bind, H.
    reflexivity.
  - rewrite run_reindexDocuments in H.
    destruct (run (RagService.initializeVectorStore E) (cleared w))
      as [wi [[b|e0]|e0]] eqn:Hinit; [discriminate| |discriminate].
    injection H as <- _.
    apply initializeVectorStore_failure in Hinit
      as (_ & Hflag & _ & Hl & Hdisk & Hstore).
    split; [exact Hflag|].
    split; [exact (diskAfterFailure_not_loadable E _ _ Hl Hdisk)|].
    split; [|exact Hstore].
    intro Hno. destruct Hdisk as [Hd|[[e1 He1] _]]; [exact Hd|].
    now destruct (Hno e1).
Qed.

Lemma failed_reindex_leaves_no_store_witness :
  exists w' e,
    run (Server.reindexDocuments fullDiskEnv) servingWorld
    = (w', Ok (Server.ErrorReply 500 (reindexHandlerError e)))
    /\ isInitialized w' = isInitialized servingWorld
    /\ loadable (vectorDB w') = false
    /\ ((forall e0, save_fault fullDiskEnv <> Some (CannotWriteIndex e0)) ->
        vectorDB w' = Missing)
    /\ (save_fault fullDiskEnv = None -> vectorStore w' = None).
Proof.
  eexists. eexists.
  apply (failed_reindex_leaves_no_store fullDiskEnv servingWorld).
  vm_compute. reflexivity.
Defined.

Lemma buildResult_true_inv E t w w' :
  buildResult E t w = (w', Ok true) ->
  exists d,
    vectorStore w' = Some (FaissStore d) /\ vectorDB w' = Present (Some d).
Proof.
  unfold buildResult.
  destruct (ingested E) as [[[|d' ds]|e]|e]; try discriminate.
  - destruct (embed_documents_error E [RagService.sentinelDocument]);
      discriminate.
  - destruct (split_documents E (d' :: ds)) as [chunks|e]; [|discriminate].
    cbv zeta. destruct (embed_documents_error E chunks); [discriminate|].
    destruct (save_fault E); [discriminate|].
    intro H; injection H as <-; exists chunks; split; reflexivity.
Qed.

Lemma initResult_true_inv E t w w' :
  initResult E t w = (w', Ok true) ->
  exists d,
    vectorStore w' = Some (FaissStore d) /\ vectorDB w' = Present (Some d).
Proof.
  unfold initResult.
  destruct (vectorDB w) as [|[d|]] eqn:Hdb;
    try apply buildResult_true_inv.
  intro H; injection H as <-; exists d; split; [reflexivity|exact Hdb].
Qed.

(** X12.  After a successful initialization the store in memory is the
    one saved; a fresh process that finds the saved store loads it
    without the bucket or an embedding pass, and retrieval from the
    reloaded store gives the same results. *)
Theorem saved_store_is_reloaded E E' w w' :
  run (RagService.initializeVectorStore E) w = (w', Ok true) ->
  exists d,
    vectorStore w' = Some (FaissStore d)
    /\ vectorDB w' = Present (Some d)
    /\ run (RagService.initializeVectorStore E')
         (Server.initialWorld (vectorDB w'))
       = (set_vectorStore (Some (FaissStore d))
            (Server.initialWorld (vectorDB w')), Ok true)
    /\ forall query topK,
         snd (run (RagService.retrieveRelevantDocuments E' query topK)
                (set_vectorStore (Some (FaissStore d))
                   (Server.initialWorld (vectorDB w'))))
         = snd (run (RagService.retrieveRelevantDocuments E' query topK) w').
Proof.
  intro H. destruct (run_initializeVectorStore E w) as [t Ht].
  rewrite Ht in H. destruct (initResult_true_inv E t w w' H) as (d & Hv & Hd).
  exists d. split; [exact Hv|]. split; [exact Hd|]. split.
  - destruct (run_initializeVectorStore E'
                (Server.initialWorld (vectorDB w'))) as [t' Ht'].
    rewrite Ht'. unfold initResult. cbn [Server.initialWorld vectorDB].
    rewrite Hd. reflexivity.
  - intros query topK.
    rewrite (run_retrieve_initialized E' query topK (FaissStore d)
               (set_vectorStore (Some (FaissStore d))
                  (Server.initialWorld (vectorDB w'))) eq_refl).
    rewrite (run_retrieve_initialized E' query topK (FaissStore d) w' Hv).
    destruct (embed_query_error E' query); reflexivity.
Qed.

Lemma saved_store_is_reloaded_witness :
  exists d,
    vectorStore
      (fst (run (RagService.initializeVectorStore Scenario.mixedEnv)
              Scenario.coldStart)) = Some (FaissStore d)
    /\ vectorDB
         (fst (run (RagService.initializeVectorStore Scenario.mixedEnv)
                 Scenario.coldStart)) = Present (Some d)
    /\ run (RagService.initializeVectorStore Scenario.emptyEnv)
         (Server.initialWorld
            (vectorDB
               (fst (run (RagService.initializeVectorStore Scenario.mixedEnv)
                       Scenario.coldStart))))
       = (set_vectorStore (Some (FaissStore d))
            (Server.initialWorld
               (vectorDB
                  (fst (run (RagService.initializeVectorStore
                               Scenario.mixedEnv) Scenario.coldStart)))),
          Ok true)
    /\ forall query topK,
         snd (run (RagService.retrieveRelevantDocuments Scenario.emptyEnv
                     query topK)
                (set_vectorStore (Some (FaissStore d))
                   (Server.initialWorld
                      (vectorDB
                         (fst (run (RagService.initializeVectorStore
                                      Scenario.mixedEnv)
                                 Scenario.coldStart))))))
         = snd (run (RagService.retrieveRelevantDocuments Scenario.emptyEnv
                       query topK)
                  (fst (run (RagService.initializeVectorStore
                               Scenario.mixedEnv) Scenario.coldStart))).
Proof.
  apply (saved_store_is_reloaded Scenario.mixedEnv Scenario.emptyEnv
           Scenario.coldStart).
  vm_compute. reflexivity.
Defined.

Lemma buildResult_not_loadable E t t' w1 w2 :
  snd (buildResult E t w1) = snd (buildResult E t' w2)
  /\ (vectorStore w1 = vectorStore w2 ->
      vectorStore (fst (buildResult E t w1))
      = vectorStore (fst (buildResult E t' w2))).
Proof.
  unfold buildResult.
  destruct (ingested E) as [[[|d' ds]|e]|e];
    [| |split; auto|split; auto].
  - destruct (embed_documents_error E [RagService.sentinelDocument]);
      split; auto.
  - destruct (split_documents E (d' :: ds)) as [chunks|e]; [|split; auto].
    cbv zeta. destruct (embed_documents_error E chunks); [split; auto|].
    destruct (save_fault E) as [[e|e]|]; split; auto.
Qed.

Lemma initResult_not_loadable E t t' w1 w2 :
  loadable (vectorDB w1) = false ->
  loadable (vectorDB w2) = false ->
  snd (initResult E t w1) = snd (initResult E t' w2)
  /\ (vectorStore w1 = vectorStore w2 ->
      vectorStore (fst (initResult E t w1))
      = vectorStore (fst (initResult E t' w2))).
Proof.
  intros H1 H2.
  assert (Hb : forall t w, loadable (vectorDB w) = false ->
                initResult E t w = buildResult E t w).
  { intros t0 w0 H0. unfold initResult.
    destruct (vectorDB w0) as [|[d|]]; try reflexivity. discriminate. }
  rewrite (Hb t w1 H1), (Hb t' w2 H2). apply buildResult_not_loadable.
Qed.

(** X13.  A saved store that does not load is no obstacle: initialization
    has the outcome and leaves the store in memory it would with no saved
    store at all. *)
Theorem unloadable_saved_store_is_rebuilt E w :
  vectorDB w = Present None ->
  snd (run (RagService.initializeVectorStore E) w)
  = snd (run (RagService.initializeVectorStore E) (set_vectorDB Missing w))
  /\ vectorStore (fst (run (RagService.initializeVectorStore E) w))
     = vectorStore
         (fst (run (RagService.initializeVectorStore E)
                 (set_vectorDB Missing w))).
Proof.
  intro Hdb.
  destruct (run_initializeVectorStore E w) as [t ->].
  destruct (run_initializeVectorStore E (set_vectorDB Missing w)) as [t' ->].
  destruct (initResult_not_loadable E t t' w (set_vectorDB Missing w))
    as [Hs Hv]; [now rewrite Hdb|reflexivity|].
  split; [exact Hs|]. now apply Hv.
Qed.

Lemma unloadable_saved_store_is_rebuilt_witness :
  snd (run (RagService.initializeVectorStore Scenario.mixedEnv)
         (Server.initialWorld (Present None)))
  = snd (run (RagService.initializeVectorStore Scenario.mixedEnv)
           (set_vectorDB Missing (Server.initialWorld (Present None))))
  /\ vectorStore
       (fst (run (RagService.initializeVectorStore Scenario.mixedEnv)
               (Server.initialWorld (Present None))))
     = vectorStore
         (fst (run (RagService.initializeVectorStore Scenario.mixedEnv)
                 (set_vectorDB Missing (Server.initialWorld (Present None))))).
Proof.
  apply (unloadable_saved_store_is_rebuilt Scenario.mixedEnv
           (Server.initialWorld (Present None))).
  reflexivity.
Defined.



Lemma generateAnswer_logs_call E query d ds w :
  fst (run (OpenaiService.generateAnswer E query (Some (d :: ds))) w)
  = log_llmCall (OpenaiService.buildPrompt query (d :: ds)) w.
Proof.
  unfold OpenaiService.generateAnswer.
  rewrite run_try_catch, run_bind. unfold OpenaiService.model_invoke.
  rewrite run_await. cbn [fst snd].
  destruct (llm E (OpenaiService.buildPrompt query (d :: ds)))
    as [[|c text]|e]; try reflexivity.
  rewrite run_bind.
  destruct (OpenaiService.extractSources (c :: text) (d :: ds));
    reflexivity.
Qed.

(** X14.  When the listing comes back without [Contents], initialization
    fails with the wrapped type error; no placeholder is built, no
    embedding pass is made. *)
Theorem listing_without_contents_fails_initialization E w :
  s3_list E = Ok None ->
  loadable (vectorDB w) = false ->
  exists w',
    run (RagService.initializeVectorStore E) w
    = (w', Err (initError (loadError (listingError missingContents))))
    /\ vectorStore w' = vectorStore w
    /\ embedPasses w' = embedPasses w
    /\ vectorDB w' = vectorDB w.
Proof.
  intros Hlist Hl. destruct (run_initializeVectorStore E w) as [t ->].
  unfold initResult, buildResult, ingested, supported. rewrite Hlist.
  destruct (vectorDB w) as [|[d|]] eqn:Hdb; try discriminate;
    eexists; (split; [reflexivity|]);
    (split; [reflexivity|]); (split; [reflexivity|exact Hdb]).
Qed.

Lemma listing_without_contents_fails_initialization_witness :
  exists w',
    run (RagService.initializeVectorStore emptyListingEnv) Scenario.coldStart
    = (w', Err (initError (loadError (listingError missingContents))))
    /\ vectorStore w' = vectorStore Scenario.coldStart
    /\ embedPasses w' = embedPasses Scenario.coldStart
    /\ vectorDB w' = vectorDB Scenario.coldStart.
Proof.
  apply (listing_without_contents_fails_initialization emptyListingEnv
           Scenario.coldStart); reflexivity.
Defined.

(** X15.  Over an empty corpus every question runs initialization again:
    the flag stays unset, one more embedding pass is made for the
    sentinel, and the generation oracle is called with the sentinel as
    the only context. *)
Theorem question_on_empty_corpus_rebuilds_placeholder E s w :
  validQuery (Some s) = true ->
  isInitialized w = false ->
  loadable (vectorDB w) = false ->
  ingested E = Ok [] ->
  embed_documents_error E [RagService.sentinelDocument] = None ->
  embed_query_error E s = None ->
  exists w' r,
    run (Server.handleQuestion E (Some s)) w = (w', Ok r)
    /\ isInitialized w' = false
    /\ embedPasses w' = embedPasses w ++ [[RagService.sentinelDocument]]
    /\ llmCalls w'
       = llmCalls w
         ++ [OpenaiService.buildPrompt s [RagService.sentinelDocument]].
Proof.
  intros Hq Hflag Hl Hing Hemb Hqe.
  rewrite (run_handleQuestion_valid E s w Hq).
  unfold ensureInitialized. rewrite Hflag.
  destruct (run_initializeVectorStore E w) as [t ->].
  assert (Hres : initResult E t w
    = (set_vectorStore
         (Some (MemoryVectorStore [RagService.sentinelDocument]))
         (log_embedPass [RagService.sentinelDocument] (set_tempFiles t w)),
       Ok false)).
  { unfold initResult, buildResult. rewrite Hing, Hemb.
    destruct (vectorDB w) as [|[d|]]; try reflexivity. discriminate. }
  rewrite Hres. unfold answerQuestion.
  erewrite run_retrieve_initialized by reflexivity.
  rewrite Hqe. cbn [storeDocs sort_by fold_right insert_by effectiveTopK
                    firstn].
  pose proof (generateAnswer_logs_call E s RagService.sentinelDocument []
                (set_isInitialized false
                   (set_vectorStore
                      (Some (MemoryVectorStore [RagService.sentinelDocument]))
                      (log_embedPass [RagService.sentinelDocument]
                         (set_tempFiles t w))))) as Hw.
  destruct (generateAnswer_settles E s (Some [RagService.sentinelDocument])
              (set_isInitialized false
                 (set_vectorStore
                    (Some (MemoryVectorStore [RagService.sentinelDocument]))
                    (log_embedPass [RagService.sentinelDocument]
                       (set_tempFiles t w))))) as [r Hr].
  destruct (run (OpenaiService.generateAnswer E s
                   (Some [RagService.sentinelDocument])) _) as [w3 c];
    cbn [fst snd] in Hw, Hr; subst w3 c.
  destruct r as [a|e]; eexists; eexists;
    (split; [reflexivity|repeat split; reflexivity]).
Qed.

Lemma question_on_empty_corpus_rebuilds_placeholder_witness :
  exists w' r,
    run (Server.handleQuestion Scenario.emptyEnv (Some Scenario.question))
      Scenario.coldStart = (w', Ok r)
    /\ isInitialized w' = false
    /\ embedPasses w'
       = embedPasses Scenario.coldStart ++ [[RagService.sentinelDocument]]
    /\ llmCalls w'
       = llmCalls Scenario.coldStart
         ++ [OpenaiService.buildPrompt Scenario.question
               [RagService.sentinelDocument]].
Proof.
  apply (question_on_empty_corpus_rebuilds_placeholder Scenario.emptyEnv
           Scenario.question Scenario.coldStart); reflexivity.
Defined.

Lemma lookup_remove_some p q c fs :
  lookup_file p (remove_file q fs) = Some c -> lookup_file p fs = Some c.
Proof.
  unfold remove_file.
  induction fs as [|[r d] fs IH]; cbn [filter lookup_file fst];
    [discriminate|].
  destruct (jseqb r q) eqn:Hrq; cbn [negb lookup_file].
  - intro H. destruct (jseqb r p) eqn:Hrp; [|now apply IH].
    apply jseqb_eq in Hrq. apply jseqb_eq in Hrp. subst q p.
    pose proof (lookup_remove_file r fs) as Hn. unfold remove_file in Hn.
    congruence.
  - destruct (jseqb r p); [auto|exact IH].
Qed.

Lemma lookup_write_some p q b c fs :
  lookup_file p (write_file q b fs) = Some c ->
  (p = q /\ c = b) \/ lookup_file p fs = Some c.
Proof.
  unfold write_file. cbn. destruct (jseqb q p) eqn:Hqp.
  - intro H. injection H as <-. apply jseqb_eq in Hqp. now left.
  - intro H. right. now apply lookup_remove_some in H.
Qed.

Lemma lookup_parsed p q b c fs :
  lookup_file p (remove_file q (write_file q b fs)) = Some c ->
  lookup_file p fs = Some c.
Proof.
  intro H. pose proof H as H'. apply lookup_remove_some in H.
  apply lookup_write_some in H as [[-> ->]|H]; [|exact H].
  rewrite lookup_remove_file in H'. discriminate.
Qed.

(** A delivered body that the write stream takes is taken whole. *)
Lemma written_took_delivered E k body content :
  written E k (Delivers body) = Took content -> content = body.
Proof.
  unfold written, write_stream. cbn [arriving].
  destruct (S3Service.createWriteStream_fault E _ _) as [[e|n e]|];
    try discriminate.
  - destruct (n <? length body)%nat; [discriminate|congruence].
  - congruence.
Qed.

Lemma binaryAfter_lookup E load k fs p c :
  lookup_file p (binaryAfter E load k fs) = Some c ->
  lookup_file p fs = Some c
  \/ (p = tempPathOf E k
      /\ exists body,
           s3_get E k = Ok body
           /\ ((exists e, written E k body = CutShort c e)
               \/ (written E k body = Took c
                   /\ exists received e, body = Breaks received e)
               \/ (body = Delivers c /\ written E k body = Took c
                   /\ exists e, load (tempPathOf E k) c = Err e))).
Proof.
  unfold binaryAfter.
  destruct (s3_get E k) as [body|e]; [|now left].
  destruct (written E k body) as [e|content e|content] eqn:Hw; [now left| |].
  - intro H. apply lookup_write_some in H as [[-> ->]|H]; [|now left].
    right. split; [reflexivity|]. exists body. split; [reflexivity|].
    left. now exists e.
  - destruct body as [full|received e].
    + pose proof (written_took_delivered E k full content Hw) as ->.
      destruct (load (tempPathOf E k) full) as [ds|e] eqn:Hload.
      * intro H. left. exact (lookup_parsed p _ full c fs H).
      * intro H. apply lookup_write_some in H as [[-> ->]|H]; [|now left].
        right. split; [reflexivity|]. exists (Delivers full).
        split; [reflexivity|]. right. right.
        split; [reflexivity|]. split; [exact Hw|now exists e].
    + intro H. apply lookup_write_some in H as [[-> ->]|H]; [|now left].
      right. split; [reflexivity|]. exists (Breaks received e).
      split; [reflexivity|]. right. left.
      split; [exact Hw|now exists received, e].
Qed.

Lemma tempAfter_lookup E obj fs p c :
  lookup_file p (tempAfter E obj fs) = Some c ->
  lookup_file p fs = Some c
  \/ (p = tempPathOf E (key obj)
      /\ (parseFailed E obj c \/ transferStopped E obj c)).
Proof.
  unfold tempAfter, parseFailed, transferStopped.
  destruct (jseqb (extensionOf obj) (js ".pdf")) eqn:Hp.
  - apply jseqb_eq in Hp. intro H.
    apply binaryAfter_lookup in H
      as [H|(-> & body & Hget & [Hcut|[Hbrk|(-> & Hw & Hload)]])];
      [now left| | |]; right; (split; [reflexivity|]).
    + right. split; [now left|]. exists body. split; [exact Hget|now left].
    + right. split; [now left|]. exists body. split; [exact Hget|now right].
    + left. split; [exact Hget|]. split; [exact Hw|]. left. now split.
  - destruct (jseqb (extensionOf obj) (js ".docx")) eqn:Hd; [|now left].
    apply jseqb_eq in Hd. intro H.
    apply binaryAfter_lookup in H
      as [H|(-> & body & Hget & [Hcut|[Hbrk|(-> & Hw & Hload)]])];
      [now left| | |]; right; (split; [reflexivity|]).
    + right. split; [now right|]. exists body. split; [exact Hget|now left].
    + right. split; [now right|]. exists body. split; [exact Hget|now right].
    + left. split; [exact Hget|]. split; [exact Hw|]. right. now split.
Qed.

Lemma passAfter_lookup E objects : forall fs p c,
  lookup_file p (passAfter E objects fs) = Some c ->
  lookup_file p fs = Some c
  \/ exists obj,
       In obj objects /\ p = tempPathOf E (key obj)
       /\ (parseFailed E obj c \/ transferStopped E obj c).
Proof.
  induction objects as [|obj objects IH]; intros fs p c H; [now left|].
  cbn [passAfter] in H.
  assert (Hone : lookup_file p (tempAfter E obj fs) = Some c ->
    lookup_file p fs = Some c
    \/ exists o,
         In o (obj :: objects) /\ p = tempPathOf E (key o)
         /\ (parseFailed E o c \/ transferStopped E o c)).
  { intro H1. apply tempAfter_lookup in H1 as [H1|[Hp Hf]]; [now left|].
    right. exists obj. split; [now left|]. now split. }
  destruct (outcome E obj); [|now apply Hone].
  apply IH in H as [H|(o & Hin & Hp & Hf)]; [now apply Hone|].
  right. exists o. split; [now right|]. now split.
Qed.

(** X16.  After an ingestion pass, a transient file that was not there
    before belongs to a binary document of the pass and holds what had
    reached it: the whole body of a document that was downloaded and
    did not parse, or the part written when the write stream failed or
    the body broke off. *)
Theorem only_failed_parses_leave_transient_files E w objects p c :
  supported E = Ok objects ->
  lookup_file p
    (tempFiles (fst (run (RagService.loadDocumentsFromS3 E) w))) = Some c ->
  lookup_file p (tempFiles w) = Some c
  \/ exists obj,
       In obj objects /\ p = tempPathOf E (key obj)
       /\ (parseFailed E obj c \/ transferStopped E obj c).
Proof.
  intros Hsup. rewrite run_loadDocumentsFromS3_files.
  cbn [fst tempFiles set_tempFiles]. unfold loadAfter. rewrite Hsup.
  apply passAfter_lookup.
Qed.

Lemma only_failed_parses_leave_transient_files_witness :
  lookup_file (tempPathOf cutEnv (key cutPdf)) (tempFiles Scenario.coldStart)
  = Some (js "%PDF-1.7")
  \/ exists obj,
       In obj cutBucket
       /\ tempPathOf cutEnv (key cutPdf) = tempPathOf cutEnv (key obj)
       /\ (parseFailed cutEnv obj (js "%PDF-1.7")
           \/ transferStopped cutEnv obj (js "%PDF-1.7")).
Proof.
  apply (only_failed_parses_leave_transient_files cutEnv
           Scenario.coldStart); reflexivity.
Defined.

(** X17.  When a pass comes to its last PDF, and that PDF is downloaded
    in full and parses, its transient file is gone at the end of the
    pass. *)
Theorem parsed_document_leaves_no_transient_file E w before obj body ds :
  s3_list E = Ok (Some (before ++ [obj])) ->
  firstCrash E
    (filter (S3Service.has_extension RagService.SUPPORTED_EXTENSIONS) before)
  = None ->
  extensionOf obj = js ".pdf" ->
  s3_get E (key obj) = Ok (Delivers body) ->
  write_fault E (tempPathOf E (key obj)) = None ->
  pdf_load E (tempPathOf E (key obj)) body = Ok ds ->
  lookup_file (tempPathOf E (key obj))
    (tempFiles (fst (run (RagService.loadDocumentsFromS3 E) w))) = None.
Proof.
  intros Hlist Hbefore Hext Hget Hfault Hload.
  assert (Hname :
    S3Service.names_directory (Path.basename (key obj)) = false).
  { apply (extensionOf_names_file obj _ Hext). discriminate. }
  rewrite run_loadDocumentsFromS3_files. cbn [fst tempFiles set_tempFiles].
  unfold loadAfter, supported. rewrite Hlist, filter_app. cbn [filter].
  rewrite (has_extension_pdf obj Hext).
  rewrite (passAfter_app E _ [obj] _ Hbefore).
  cbn [passAfter].
  assert (Hafter : forall fs,
    tempAfter E obj fs
    = remove_file (tempPathOf E (key obj))
        (write_file (tempPathOf E (key obj)) body fs)).
  { intro fs. unfold tempAfter, binaryAfter.
    rewrite Hext, Hget, (written_no_fault E _ _ Hname Hfault).
    cbn [arriving]. now rewrite Hload. }
  rewrite Hafter. destruct (outcome E obj); apply lookup_remove_file.
Qed.

Lemma parsed_document_leaves_no_transient_file_witness :
  lookup_file (tempPathOf parsingEnv (key Scenario.brokenPdf))
    (tempFiles
       (fst (run (RagService.loadDocumentsFromS3 parsingEnv)
               Scenario.coldStart))) = None.
Proof.
  apply (parsed_document_leaves_no_transient_file parsingEnv
           Scenario.coldStart [] Scenario.brokenPdf
           (js "body of reports/broken.pdf")
           [mkDocument (js "page one")
              (mkMetadata (Some (js "/app/temp/broken.pdf")) None
                 (Some 1%N))]); reflexivity.
Defined.

(** X18.  Two keys with the same base name, one that names a file, are
    downloaded to the same transient path; when both bodies arrive in
    full and the write stream on that path is sound, the second download
    overwrites the first. *)
Theorem same_file_name_shares_transient_file E k1 k2 b1 b2 w :
  Path.basename k1 = Path.basename k2 ->
  S3Service.names_directory (Path.basename k1) = false ->
  s3_get E k1 = Ok (Delivers b1) ->
  s3_get E k2 = Ok (Delivers b2) ->
  write_fault E (tempPathOf E k1) = None ->
  exists w',
    run (p1 <- S3Service.downloadObjectToTemp E k1 ;;
         p2 <- S3Service.downloadObjectToTemp E k2 ;;
         Ret (p1, p2)) w
    = (w', Ok (tempPathOf E k1, tempPathOf E k1))
    /\ lookup_file (tempPathOf E k1) (tempFiles w') = Some b2.
Proof.
  intros Hname Hfile H1 H2 Hfault.
  assert (Hpath : tempPathOf E k2 = tempPathOf E k1).
  { unfold tempPathOf. now rewrite Hname. }
  assert (Hfile2 : S3Service.names_directory (Path.basename k2) = false)
    by now rewrite <- Hname.
  assert (Hfault2 : write_fault E (tempPathOf E k2) = None)
    by now rewrite Hpath.
  rewrite run_bind, run_downloadObjectToTemp, H1.
  rewrite (written_no_fault E k1 _ Hfile Hfault).
  rewrite run_bind, run_downloadObjectToTemp, H2.
  rewrite (written_no_fault E k2 _ Hfile2 Hfault2).
  rewrite Hpath. cbn [arriving run].
  eexists. split; [reflexivity|].
  cbn [tempFiles set_tempFiles]. apply lookup_write_file.
Qed.

Lemma same_file_name_shares_transient_file_witness :
  exists w',
    run (p1 <- S3Service.downloadObjectToTemp Scenario.mixedEnv
                 (js "reports/broken.pdf") ;;
         p2 <- S3Service.downloadObjectToTemp Scenario.mixedEnv
                 (js "archive/2024/broken.pdf") ;;
         Ret (p1, p2)) Scenario.coldStart
    = (w', Ok (tempPathOf Scenario.mixedEnv (js "reports/broken.pdf"),
               tempPathOf Scenario.mixedEnv (js "reports/broken.pdf")))
    /\ lookup_file (tempPathOf Scenario.mixedEnv (js "reports/broken.pdf"))
         (tempFiles w')
       = Some (js "body of archive/2024/broken.pdf").
Proof.
  apply (same_file_name_shares_transient_file Scenario.mixedEnv
           (js "reports/broken.pdf") (js "archive/2024/broken.pdf")
           (js "body of reports/broken.pdf")
           (js "body of archive/2024/broken.pdf") Scenario.coldStart);
    reflexivity.
Defined.
Lemma infix_app_l x s a : infix x s -> infix x (a ++ s).
Proof.
  intros (l & r & ->). exists (a ++ l), r. now rewrite <- app_assoc.
Qed.

Lemma infix_app_r x s b : infix x s -> infix x (s ++ b).
Proof.
  intros (l & r & ->). exists l, (r ++ b). now rewrite <- !app_assoc.
Qed.

Lemma infix_refl x : infix x x.
Proof. exists [], []. now rewrite app_nil_r. Qed.

Lemma join_infix sep l : forall i x,
  nth_error l i = Some x -> infix x (OpenaiService.join sep l).
Proof.
  induction l as [|a l IH]; intros i x H; [destruct i; discriminate|].
  destruct i as [|i]; cbn [nth_error] in H.
  - injection H as ->. destruct l as [|b l]; cbn [OpenaiService.join].
    + apply infix_refl.
    + apply infix_app_r, infix_refl.
  - destruct l as [|b l]; [destruct i; discriminate|].
    cbn [OpenaiService.join]. apply infix_app_l, infix_app_l.
    exact (IH i x H).
Qed.

Lemma mapi_from_nth {A B} (f : A -> Z -> B) l : forall z i a,
  nth_error l i = Some a ->
  nth_error (OpenaiService.mapi_from f z l) i = Some (f a (z + Z.of_nat i)%Z).
Proof.
  induction l as [|x l IH]; intros z i a H; [destruct i; discriminate|].
  destruct i as [|i]; cbn [nth_error OpenaiService.mapi_from] in *.
  - injection H as ->. now rewrite Z.add_0_r.
  - rewrite (IH (z + 1)%Z i a H). f_equal. f_equal. lia.
Qed.

(** X5.  The prompt holds the query and, for every retrieved chunk, its
    1-based rank in brackets, its source (or the rank label) and its full
    text. *)
Theorem buildPrompt_embeds_query_and_chunks query docs :
  infix query (OpenaiService.buildPrompt query docs)
  /\ forall i doc,
       nth_error docs i = Some doc ->
       infix
         (js "문서 [" ++ toString10 (Z.of_nat i + 1) ++ js "] (출처: "
            ++ OpenaiService.or_else (source (metadata doc))
                 (OpenaiService.rankLabel (Z.of_nat i))
            ++ js "):" ++ OpenaiService.NEWLINE ++ pageContent doc
            ++ OpenaiService.NEWLINE)
         (OpenaiService.buildPrompt query docs).
Proof.
  unfold OpenaiService.buildPrompt. split.
  - do 5 apply infix_app_l. apply infix_app_r, infix_refl.
  - intros i doc H. do 3 apply infix_app_l. apply infix_app_r.
    apply (join_infix _ _ i).
    rewrite (mapi_from_nth OpenaiService.context docs 0 i doc H).
    reflexivity.
Qed.


Lemma buildResult_ok_store E t w w' b :
  buildResult E t w = (w', Ok b) -> vectorStore w' <> None.
Proof.
  unfold buildResult.
  destruct (ingested E) as [[[|d' ds]|e]|e]; try discriminate.
  - destruct (embed_documents_error E [RagService.sentinelDocument]);
      [discriminate|intro H; injection H as <- _; discriminate].
  - destruct (split_documents E (d' :: ds)) as [chunks|e]; [|discriminate].
    cbv zeta. destruct (embed_documents_error E chunks); [discriminate|].
    destruct (save_fault E); [discriminate|].
    intro H; injection H as <- _; discriminate.
Qed.

Lemma initResult_ok_store E t w w' b :
  initResult E t w = (w', Ok b) -> vectorStore w' <> None.
Proof.
  unfold initResult.
  destruct (vectorDB w) as [|[d|]]; try apply buildResult_ok_store.
  intro H; injection H as <- _; discriminate.
Qed.

(** X19.  Retrieval with no store in memory runs initialization first and
    then searches the store it built; a failure of initialization is
    wrapped and nothing is searched, and a crash of initialization is
    the end. *)
Theorem retrieve_initializes_when_needed E query topK w :
  vectorStore w = None ->
  run (RagService.retrieveRelevantDocuments E query topK) w =
  match run (RagService.initializeVectorStore E) w with
  | (wi, Settles (Ok _)) =>
    run (RagService.retrieveRelevantDocuments E query topK) wi
  | (wi, Settles (Err e)) => (wi, Err (retrieveError e))
  | (wi, Crashes e) => (wi, Crashes e)
  end.
Proof.
  intro Hv. unfold RagService.retrieveRelevantDocuments at 1.
  rewrite run_try_catch, run_bind, run_get, Hv, run_bind, run_bind.
  destruct (run_initializeVectorStore E w) as [t Ht]. rewrite Ht.
  pose proof (initResult_ok_store E t w) as Hstore.
  destruct (initResult E t w) as [wi [[b|e]|e]]; [|reflexivity|reflexivity].
  specialize (Hstore wi b eq_refl).
  destruct (vectorStore wi) as [v|] eqn:Hvi; [|congruence].
  rewrite (run_retrieve_initialized E query topK v wi Hvi).
  cbn [run]. rewrite run_bind, run_get, Hvi. unfold similaritySearch.
  rewrite run_await. cbn [fst snd]. unfold effectiveTopK.
  destruct (embed_query_error E query); reflexivity.
Qed.

Lemma retrieve_initializes_when_needed_witness :
  run (RagService.retrieveRelevantDocuments Scenario.mixedEnv
         Scenario.question None) Scenario.coldStart =
  match run (RagService.initializeVectorStore Scenario.mixedEnv)
          Scenario.coldStart with
  | (wi, Settles (Ok _)) =>
    run (RagService.retrieveRelevantDocuments Scenario.mixedEnv
           Scenario.question None) wi
  | (wi, Settles (Err e)) => (wi, Err (retrieveError e))
  | (wi, Crashes e) => (wi, Crashes e)
  end.
Proof.
  apply (retrieve_initializes_when_needed Scenario.mixedEnv Scenario.question
           None Scenario.coldStart).
  reflexivity.
Defined.

(** X20.  The per-document [catch] at work.  In a pass in which no
    object's processing crashes, no document makes the pass fail: its
    result is the concatenation, in listing order, of what each
    supported object contributes, and an object whose processing throws
    (a failed request, a write stream that fails, a body of a text
    document that breaks off, a document that does not parse)
    contributes nothing; the objects before and after it contribute as
    they would without it. *)
Theorem loadDocumentsFromS3_skips_failed_documents E w items :
  s3_list E = Ok (Some items) ->
  let objects :=
    filter (S3Service.has_extension RagService.SUPPORTED_EXTENSIONS) items in
  firstCrash E objects = None ->
  exists w',
    run (RagService.loadDocumentsFromS3 E) w
    = (w', Ok (flat_map (contribution E) objects))
    /\ (forall before bad after e,
          objects = before ++ bad :: after ->
          outcome E bad = Err e ->
          flat_map (contribution E) objects
          = flat_map (contribution E) before
            ++ flat_map (contribution E) after).
Proof.
  intros Hlist objects Hsound.
  eexists. split.
  - rewrite run_loadDocumentsFromS3_files. unfold ingested, supported.
    rewrite Hlist. fold objects.
    now rewrite (flat_map_contribution_settled E objects Hsound).
  - intros before bad after e -> Hbad.
    rewrite flat_map_app. cbn [flat_map]. unfold contribution at 2.
    now rewrite Hbad.
Qed.

Lemma loadDocumentsFromS3_skips_failed_documents_witness :
  exists w',
    run (RagService.loadDocumentsFromS3 Scenario.mixedEnv) Scenario.coldStart
    = (w', Ok (flat_map (contribution Scenario.mixedEnv)
                 (filter
                    (S3Service.has_extension RagService.SUPPORTED_EXTENSIONS)
                    Scenario.mixedBucket)))
    /\ (forall before bad after e,
          filter (S3Service.has_extension RagService.SUPPORTED_EXTENSIONS)
            Scenario.mixedBucket = before ++ bad :: after ->
          outcome Scenario.mixedEnv bad = Err e ->
          flat_map (contribution Scenario.mixedEnv)
            (filter (S3Service.has_extension RagService.SUPPORTED_EXTENSIONS)
               Scenario.mixedBucket)
          = flat_map (contribution Scenario.mixedEnv) before
            ++ flat_map (contribution Scenario.mixedEnv) after).
Proof.
  apply (loadDocumentsFromS3_skips_failed_documents Scenario.mixedEnv
           Scenario.coldStart Scenario.mixedBucket).
  - reflexivity.
  - vm_compute. reflexivity.
Defined.

(** X21.  Reindexing is initialization run from the cleared state (saved
    store deleted whether or not there was one, store in memory dropped):
    its outcome does not depend on the saved store or the store in memory
    it starts with, and it returns the success flag of the
    initialization with a non-empty message.  When the listing has its
    [Contents] and the pass finds nothing to index, the handler answers
    success = false with the message and the status query that follows
    reports not initialized. *)
Theorem reindexDocuments_rebuilds_from_scratch E w :
  (run (RagService.reindexDocuments E) w =
   match run (RagService.initializeVectorStore E) (cleared w) with
   | (w', Settles (Ok b)) =>
     (w', Ok (RagService.mkReindexResult b (reindexMessage b)))
   | (w', Settles (Err e)) => (w', Err (reindexError e))
   | (w', Crashes e) => (w', Crashes e)
   end)
  /\ (forall d v,
        run (RagService.reindexDocuments E)
          (set_vectorDB d (set_vectorStore v w))
        = run (RagService.reindexDocuments E) w)
  /\ (forall b, reindexMessage b <> [])
  /\ (ingested E = Ok [] ->
      embed_documents_error E [RagService.sentinelDocument] = None ->
      exists w',
        run (Server.reindexDocuments E) w
        = (w', Ok (Server.ReindexReply false (reindexMessage false)))
        /\ run Server.checkStatus w' = (w', Ok (Server.StatusReply false))
        /\ vectorDB w' = Missing).
Proof.
  split; [apply run_reindexDocuments|].
  split; [intros d v; now rewrite !run_reindexDocuments|].
  split; [intros [|]; discriminate|].
  intros Hing Hemb.
  destruct (run_initializeVectorStore E (cleared w)) as [t Ht].
  unfold initResult, buildResult in Ht. cbn [vectorDB cleared
    set_vectorStore set_vectorDB] in Ht. rewrite Hing, Hemb in Ht.
  eexists. unfold Server.reindexDocuments.
  rewrite run_try_catch, run_bind, run_reindexDocuments, Ht.
  cbn [RagService.success RagService.message].
  rewrite run_bind, run_modify. cbn [run].
  split; [reflexivity|]. split; reflexivity.
Qed.

Lemma reindexDocuments_rebuilds_from_scratch_witness :
  exists w',
    run (Server.reindexDocuments Scenario.emptyEnv) servingWorld
    = (w', Ok (Server.ReindexReply false (reindexMessage false)))
    /\ run Server.checkStatus w' = (w', Ok (Server.StatusReply false))
    /\ vectorDB w' = Missing.
Proof.
  apply (reindexDocuments_rebuilds_from_scratch Scenario.emptyEnv
           servingWorld); reflexivity.
Defined.

Lemma search_no_occurrence text :
  firstOccurrenceAfter text [] ->
  search OpenaiService.sourcesPattern text = None.
Proof.
  induction text as [|c text IH]; intro H; [reflexivity|].
  cbn [search].
  destruct (match_here OpenaiService.sourcesPattern (c :: text))
    as [m|] eqn:Hc.
  - exfalso. apply (H [] (c :: text) eq_refl); [discriminate|].
    rewrite app_nil_r. exact (match_here_startsCitation _ _ Hc).
  - apply IH. intros a b -> Hb. exact (H (c :: a) b eq_refl Hb).
Qed.

(** X22.  An answer text in which no citation of the form accepted by
    the pattern occurs is returned as it is, with no sources, whatever
    brackets it holds.  The form the prompt itself asks for, with the
    word before every number, is such a text. *)
Theorem generateAnswer_without_occurrence E query docs w text :
  docs <> [] -> text <> [] -> firstOccurrenceAfter text [] ->
  llm E (OpenaiService.buildPrompt query docs) = Ok text ->
  run (OpenaiService.generateAnswer E query (Some docs)) w
  = (log_llmCall (OpenaiService.buildPrompt query docs) w,
     Ok (OpenaiService.mkAnswer text [])).
Proof.
  intros Hdocs Htext Hno Hllm.
  destruct docs as [|d ds]; [congruence|].
  destruct text as [|c text]; [congruence|].
  unfold OpenaiService.generateAnswer.
  rewrite run_try_catch, run_bind. unfold OpenaiService.model_invoke.
  rewrite run_await, Hllm. cbn [fst snd]. rewrite run_bind.
  unfold OpenaiService.extractSources, OpenaiService.sourceIndicesOf.
  rewrite (search_no_occurrence (c :: text) Hno). reflexivity.
Qed.

Lemma generateAnswer_without_occurrence_witness :
  run (OpenaiService.generateAnswer promptFormatEnv Scenario.question
         (Some Scenario.twoChunks)) Scenario.coldStart
  = (log_llmCall
       (OpenaiService.buildPrompt Scenario.question Scenario.twoChunks)
       Scenario.coldStart,
     Ok (OpenaiService.mkAnswer promptFormatAnswer [])).
Proof.
  apply (generateAnswer_without_occurrence promptFormatEnv Scenario.question
           Scenario.twoChunks Scenario.coldStart promptFormatAnswer).
  - discriminate.
  - discriminate.
  - apply noMatchWithin_sound. vm_compute. reflexivity.
  - reflexivity.
Defined.

(** X23.  A text document whose body breaks off in transit is skipped:
    the promise of [streamToString] rejects, the rejection reaches the
    pass without the prefix of [getObjectContent], and the
    per-document [catch] takes it, leaving the documents gathered so far
    and the world as they were. *)
Theorem broken_text_body_is_skipped E obj docs w received e :
  extensionOf obj <> js ".pdf" ->
  extensionOf obj <> js ".docx" ->
  s3_get E (key obj) = Ok (Breaks received e) ->
  run (S3Service.getObjectContent E (key obj)) w = (w, Err e)
  /\ run (try_catch (RagService.processObject E obj docs)
            (fun _ => Ret docs)) w
     = (w, Ok docs).
Proof.
  intros Hpdf Hdocx Hget. split.
  - now rewrite run_getObjectContent, Hget.
  - rewrite run_try_catch, run_processObject.
    unfold tempAfter, outcome, textOutcome. fold (extensionOf obj).
    destruct (jseqb (extensionOf obj) (js ".pdf")) eqn:H1;
      [apply jseqb_eq in H1; congruence|].
    destruct (jseqb (extensionOf obj) (js ".docx")) eqn:H2;
      [apply jseqb_eq in H2; congruence|].
    rewrite Hget. cbn [gathered run]. now rewrite set_tempFiles_same.
Qed.

Lemma broken_text_body_is_skipped_witness :
  run (S3Service.getObjectContent brokenTextEnv (key guideMd))
    Scenario.coldStart
  = (Scenario.coldStart, Err (js "aborted"))
  /\ run (try_catch
            (RagService.processObject brokenTextEnv guideMd [])
            (fun _ => Ret [])) Scenario.coldStart
     = (Scenario.coldStart, Ok []).
Proof.
  apply (broken_text_body_is_skipped brokenTextEnv guideMd []
           Scenario.coldStart (js "# Gui") (js "aborted"));
    [discriminate|discriminate|reflexivity].
Defined.
